(** * Log ingestion and dispatch pipeline of the pganalyze collector

    A shallow embedding of [AnalyzeInGroupsAndSend]
    (input/system/logs/send.go) together with the parts of package
    [state] it touches, and the properties of the stitcher, the
    readiness windower, the packager, the per-backend joiner and the
    dispatcher.

    Go slices are lists, the [map[int32][]LogLine] of the grouper is a
    [gmap], [int64] values are integers with the wrap-around written
    out, strings are byte strings ([len] is [String.length]).  Everything
    the function obtains from outside (the clock, the temporary file,
    the outcome of each write, the analyzer, the grant, the upload, the
    release of the envelope, the iteration order of the Go map) is read
    from an explicit environment record; the temporary files and the
    test channel form an explicit world state, and the calls made to the
    outside are recorded in a trace. *)

From Stdlib Require Import ZArith String Ascii List Lia.
From stdpp Require Import base option list gmap strings fin_maps.

Local Open Scope Z_scope.

(** ** Machine integers *)

Module Int64.

Definition modulus : Z := 2 ^ 64.
Definition max_signed : Z := 2 ^ 63 - 1.
Definition min_signed : Z := - 2 ^ 63.

(** The value an [int64] variable holds after being assigned [z]. *)
Definition wrap (z : Z) : Z :=
  (z + 2 ^ 63) mod modulus - 2 ^ 63.

Definition add (a b : Z) : Z := wrap (a + b).
Definition sub (a b : Z) : Z := wrap (a - b).

Definition in_range (z : Z) : Prop := min_signed <= z <= max_signed.

End Int64.

(** ** Time

    A [time.Time] is kept as its number of nanoseconds since the epoch,
    a [time.Duration] is an [int64] count of nanoseconds; [Time.Sub]
    saturates at the largest and smallest duration. *)

Module Time.

Definition Second : Z := 1000000000.

Definition Sub (t u : Z) : Z :=
  let d := t - u in
  if Int64.max_signed <? d then Int64.max_signed
  else if d <? Int64.min_signed then Int64.min_signed
  else d.

End Time.

(** ** Data model (package state) *)

(** Modelled from the spec: the enumeration
    [pganalyze_collector.LogLineInformation_LogLevel] is generated code
    that is not among the sources; the pipeline only ever compares a
    level with [UNKNOWN]. *)
Inductive LogLevel : Type :=
  | LogLevel_UNKNOWN
  | LogLevel_Known (tag : N).

(** Modelled from the spec: the classification enumeration assigned by
    the analyzer; the pipeline only ever compares a classification with
    the identity marker [PGA_COLLECTOR_IDENTIFY]. *)
Inductive LogClassification : Type :=
  | Classification_UNKNOWN
  | PGA_COLLECTOR_IDENTIFY
  | Classification_Other (tag : N).

Global Instance LogLevel_eq_dec : EqDecision LogLevel.
Proof. solve_decision. Defined.

Global Instance LogClassification_eq_dec : EqDecision LogClassification.
Proof. solve_decision. Defined.

(** Modelled from the spec: [state.LogLine] (state/logs.go is not among
    the sources), with the fields [AnalyzeInGroupsAndSend] reads and
    writes.  [Details] is the open string-keyed mapping filled in by the
    analyzer. *)
Record LogLine : Type := mkLogLine {
  CollectedAt : Z;
  LogLevelOf : LogLevel;
  BackendPid : Z;
  Content : string;
  ByteStart : Z;
  ByteContentStart : Z;
  ByteEnd : Z;
  Classification : LogClassification;
  Details : gmap string string
}.

Global Instance LogLine_eq_dec : EqDecision LogLine.
Proof. solve_decision. Defined.

Definition set_Content (c : string) (l : LogLine) : LogLine :=
  mkLogLine (CollectedAt l) (LogLevelOf l) (BackendPid l) c
            (ByteStart l) (ByteContentStart l) (ByteEnd l)
            (Classification l) (Details l).

Definition set_ByteEnd (e : Z) (l : LogLine) : LogLine :=
  mkLogLine (CollectedAt l) (LogLevelOf l) (BackendPid l) (Content l)
            (ByteStart l) (ByteContentStart l) e
            (Classification l) (Details l).

Definition set_Bytes (s cs e : Z) (l : LogLine) : LogLine :=
  mkLogLine (CollectedAt l) (LogLevelOf l) (BackendPid l) (Content l)
            s cs e (Classification l) (Details l).

(** [int64(len(s))] *)
Definition len64 (s : string) : Z := Int64.wrap (Z.of_nat (String.length s)).

(** [s[len(s)-1] = f(s[len(s)-1])] on a non-empty slice. *)
Definition update_last {A} (f : A -> A) (s : list A) : list A :=
  alter f (pred (length s)) s.

(** ** Stage 1: the stitcher (send.go, first loop) *)

Definition is_fragment (l : LogLine) : bool :=
  bool_decide (LogLevelOf l = LogLevel_UNKNOWN) && (BackendPid l =? 0).

Fixpoint stitch_loop (stitchedLogLines logLines : list LogLine) : list LogLine :=
  match logLines with
  | [] => stitchedLogLines
  | logLine :: rest =>
      if negb (bool_decide (LogLevelOf logLine = LogLevel_UNKNOWN))
         || negb (BackendPid logLine =? 0)
      then stitch_loop (stitchedLogLines ++ [logLine]) rest
      else if (0 <? length stitchedLogLines)%nat
      then stitch_loop
             (update_last
                (fun p => set_Content (Content p +:+ " " +:+ Content logLine) p)
                stitchedLogLines)
             rest
      else stitch_loop stitchedLogLines rest
  end.

Definition stitch (logLines : list LogLine) : list LogLine :=
  stitch_loop [] logLines.

(** ** Stage 2: the readiness windower (send.go, second loop) *)

Fixpoint window_loop (now : Z) (readyLogLines tooFreshLogLines stitchedLogLines : list LogLine)
  : list LogLine * list LogLine :=
  match stitchedLogLines with
  | [] => (readyLogLines, tooFreshLogLines)
  | logLine :: rest =>
      if 3 * Time.Second <? Time.Sub now (CollectedAt logLine)
      then window_loop now (readyLogLines ++ [logLine]) tooFreshLogLines rest
      else window_loop now readyLogLines (tooFreshLogLines ++ [logLine]) rest
  end.

Definition window (now : Z) (stitchedLogLines : list LogLine) : list LogLine * list LogLine :=
  window_loop now [] [] stitchedLogLines.

Definition ready_of (now : Z) (logLines : list LogLine) : list LogLine :=
  fst (window now (stitch logLines)).

Definition tooFresh_of (now : Z) (logLines : list LogLine) : list LogLine :=
  snd (window now (stitch logLines)).

(** ** The rest of package state and the collaborators *)

Definition error : Type := string.

(** Modelled from the spec: [state.PostgresQuerySample] is not among the
    sources; the pipeline only moves samples from the analyzer to the
    upload. *)
Inductive QuerySample : Type := mkQuerySample (query : string).

Global Instance QuerySample_eq_dec : EqDecision QuerySample.
Proof. solve_decision. Defined.

(** state.go *)
Record GrantFeatures : Type := mkGrantFeatures {
  Logs : bool;
  Explain : bool;
  StatementResetFrequency : Z;
  StatementTimeoutMs : Z
}.

Record GrantConfig : Type := mkGrantConfig {
  ServerID : string;
  SentryDsn : string;
  Features : GrantFeatures
}.

Record Grant : Type := mkGrant {
  Valid : bool;
  Config : GrantConfig;
  S3URL : string;
  S3Fields : gmap string string;
  LocalDir : string
}.

Record GrantS3 : Type := mkGrantS3 {
  GrantS3_S3URL : string;
  GrantS3_S3Fields : gmap string string
}.

(** [func (g Grant) S3() GrantS3] *)
Definition Grant_S3 (g : Grant) : GrantS3 :=
  mkGrantS3 (S3URL g) (S3Fields g).

Record CollectionOpts : Type := mkCollectionOpts {
  CollectPostgresRelations : bool;
  CollectPostgresSettings : bool;
  CollectPostgresLocks : bool;
  CollectPostgresFunctions : bool;
  CollectPostgresBloat : bool;
  CollectPostgresViews : bool;
  CollectLogs : bool;
  CollectExplain : bool;
  CollectSystemInformation : bool;
  CollectorApplicationName : string;
  DiffStatements : bool;
  SubmitCollectedData : bool;
  TestRun : bool;
  TestReport : string;
  TestRunLogs : bool;
  DebugLogs : bool;
  DiscoverLogLocation : bool;
  StateFilename : string;
  WriteStateUpdate : bool;
  ForceEmptyGrant : bool
}.

(** Modelled from the spec: [config.ServerConfig] is not among the
    sources; the pipeline reads its section name only, the configured
    identity matched in test mode.  [PrevState] and [StateMutex] of
    [Server] are never touched by the pipeline and are left out. *)
Record ServerConfig : Type := mkServerConfig {
  SectionName : string
}.

Record Server : Type := mkServer {
  ServerConfigOf : ServerConfig;
  RequestedSslMode : string;
  ServerGrant : Grant
}.

(** Modelled from the spec: [state.LogFile] and [state.LogState]
    (state/logs.go is not among the sources).  [TmpFile] is the handle of
    the temporary byte store, [None] for a nil handle; a handle is the
    name of the file it has open. *)
Record LogFile : Type := mkLogFile {
  UUID : N;
  TmpFile : option string;
  LogLines : list LogLine
}.

Record LogState : Type := mkLogState {
  LogState_CollectedAt : Z;
  LogFiles : list LogFile;
  QuerySamples : list QuerySample
}.

(** *** The world: temporary files and the test channel *)

(** A send completes when the observer is (or will be) receiving, or when
    the buffer has a free slot; otherwise it blocks for ever. *)
Record Chan : Type := mkChan {
  chan_receives : nat;
  chan_free : nat
}.

Definition chan_send (c : Chan) : option Chan :=
  match chan_receives c, chan_free c with
  | S r, f => Some (mkChan r f)
  | O, S f => Some (mkChan O f)
  | O, O => None
  end.

Record World : Type := mkWorld {
  files : gmap string string;
  logTestSucceeded : Chan
}.

Inductive WriteResult : Type :=
  | WriteOk
  | WriteErr (written : nat) (err : error).

Inductive Event : Type :=
  | EvPrintError (msg : string) (err : error)
  | EvPrintInfo (msg : string)
  | EvPrintVerbose (msg : string)
  | EvPrintDebugInfo (content : string) (lines : list LogLine) (samples : list QuerySample)
  | EvGetLogsGrant (server : Server) (opts : CollectionOpts) (res : Grant + error)
  | EvUploadAndSendLogs (server : Server) (grant : Grant) (opts : CollectionOpts)
                        (logState : LogState) (store : gmap string string) (res : option error)
  | EvSendTestSucceeded (v : bool).

(** What one invocation obtains from outside. *)
Record Env : Type := mkEnv {
  env_Now : Z;
  env_Now2 : Z;
  env_NewV4 : N;
  env_TempFile : string + error;
  env_WriteString : nat -> WriteResult;
  env_range : list (Z * list LogLine) -> list (Z * list LogLine);
  AnalyzeBackendLogLines : list LogLine -> list LogLine * list QuerySample;
  GetLogsGrant : Server -> CollectionOpts -> Grant + error;
  UploadAndSendLogs : Server -> Grant -> CollectionOpts -> LogState -> option error;
  LogState_Cleanup : LogState -> gmap string string -> gmap string string
}.

(** Modelled from the spec: [LogFile.Cleanup] and [LogState.Cleanup]
    (state/logs.go is not among the sources): releasing the envelope
    deletes the backing store of every artifact the envelope holds.
    This is the [LogState_Cleanup] of the concrete runs below. *)
Definition LogFile_Cleanup (logFile : LogFile) (fs : gmap string string) : gmap string string :=
  match TmpFile logFile with
  | Some name => delete name fs
  | None => fs
  end.

Definition LogState_Cleanup_stores (ls : LogState) (fs : gmap string string)
  : gmap string string :=
  fold_left (fun fs logFile => LogFile_Cleanup logFile fs) (LogFiles ls) fs.

(** ** Stage 5: the packager (send.go, loop over [readyLogLines]) *)

Definition prefix_of_string (n : nat) (s : string) : string := String.substring 0 n s.

Record PackState : Type := mkPackState {
  pk_files : gmap string string;
  pk_currentByteStart : Z;
  pk_readyLogLines : list LogLine;
  pk_trace : list Event
}.

Definition file_append (name : string) (bytes : string) (fs : gmap string string)
  : gmap string string :=
  alter (fun c => c +:+ bytes) name fs.

Fixpoint package_loop (write : nat -> WriteResult) (name : string)
    (idx : nat) (todo : list LogLine) (st : PackState) : PackState :=
  match todo with
  | [] => st
  | logLine :: rest =>
      match write idx with
      | WriteErr n err =>
          mkPackState
            (file_append name (prefix_of_string n (Content logLine)) (pk_files st))
            (pk_currentByteStart st)
            (pk_readyLogLines st)
            (pk_trace st ++ [EvPrintError "%s" err])
      | WriteOk =>
          let currentByteStart := pk_currentByteStart st in
          let logLine' :=
            set_Bytes currentByteStart currentByteStart
              (Int64.sub (Int64.add currentByteStart (len64 (Content logLine))) 1)
              logLine in
          package_loop write name (S idx) rest
            (mkPackState
               (file_append name (Content logLine) (pk_files st))
               (Int64.add currentByteStart (len64 (Content logLine)))
               (<[idx := logLine']> (pk_readyLogLines st))
               (pk_trace st))
      end
  end.

(** ** Stage 3: the backend grouper and joiner *)

Definition group_step (backendLogLines : gmap Z (list LogLine)) (logLine : LogLine)
  : gmap Z (list LogLine) :=
  <[BackendPid logLine :=
      default [] (backendLogLines !! BackendPid logLine) ++ [logLine]]> backendLogLines.

Definition group_by_backend (readyLogLines : list LogLine) : gmap Z (list LogLine) :=
  fold_left group_step readyLogLines ∅.

Definition join_into (logLine p : LogLine) : LogLine :=
  let p' := set_Content (Content p +:+ Content logLine) p in
  set_ByteEnd (Int64.add (ByteEnd p') (len64 (Content logLine))) p'.

Fixpoint join_loop (analyzableLogLines logLines : list LogLine) : list LogLine :=
  match logLines with
  | [] => analyzableLogLines
  | logLine :: rest =>
      if negb (bool_decide (LogLevelOf logLine = LogLevel_UNKNOWN))
      then join_loop (analyzableLogLines ++ [logLine]) rest
      else if (0 <? length analyzableLogLines)%nat
      then join_loop (update_last (join_into logLine) analyzableLogLines) rest
      else join_loop analyzableLogLines rest
  end.

Definition join (logLines : list LogLine) : list LogLine := join_loop [] logLines.

(** Stage 4: one call of the analyzer per backend group. *)
Fixpoint analyze_groups (env : Env) (groups : list (Z * list LogLine))
    (outLines : list LogLine) (samples : list QuerySample)
  : list LogLine * list QuerySample :=
  match groups with
  | [] => (outLines, samples)
  | (_, logLines) :: rest =>
      let '(backendLogLinesOut, backendSamples) :=
        AnalyzeBackendLogLines env (join logLines) in
      analyze_groups env rest (outLines ++ backendLogLinesOut) (samples ++ backendSamples)
  end.

(** ** Stage 6: the dispatcher, and the whole function *)

(** The return statements of [AnalyzeInGroupsAndSend], top to bottom. *)
Inductive ExitPath : Type :=
  | RetNothingReady
  | RetTempFileError
  | RetNothingToSend
  | RetDebug
  | RetTestRun
  | RetGrantError
  | RetGrantDenied
  | RetUploadError
  | RetUploaded.

Global Instance ExitPath_eq_dec : EqDecision ExitPath.
Proof. solve_decision. Defined.

(** A call either returns its backlog through one of the return
    statements, or stays blocked in a send on the test channel. *)
Inductive Outcome : Type :=
  | Returned (path : ExitPath) (backlog : list LogLine)
  | Blocked.

Record Result : Type := mkResult {
  outcome : Outcome;
  world : World;
  trace : list Event
}.

Definition is_identify (server : Server) (logLine : LogLine) : bool :=
  bool_decide (Classification logLine = PGA_COLLECTOR_IDENTIFY)
  && bool_decide (Details logLine !! "config_section"%string
                  = Some (SectionName (ServerConfigOf server))).

(** The loop of the test-run branch: one send per matching line. *)
Fixpoint test_loop (server : Server) (lines : list LogLine) (ch : Chan) (tr : list Event)
  : option Chan * list Event :=
  match lines with
  | [] => (Some ch, tr)
  | logLine :: rest =>
      if is_identify server logLine
      then match chan_send ch with
           | Some ch' => test_loop server rest ch' (tr ++ [EvSendTestSucceeded true])
           | None => (None, tr)
           end
      else test_loop server rest ch tr
  end.

Definition AnalyzeInGroupsAndSend (env : Env) (server : Server) (logLines : list LogLine)
    (globalCollectionOpts : CollectionOpts) (w : World) : Result :=
  let now := env_Now env in
  let stitchedLogLines := stitch logLines in
  let '(readyLogLines, tooFreshLogLines) := window now stitchedLogLines in
  if (length readyLogLines =? 0)%nat then
    mkResult (Returned RetNothingReady tooFreshLogLines) w []
  else
    match env_TempFile env with
    | inr err =>
        mkResult (Returned RetTempFileError logLines) w
                 [EvPrintError "Could not allocate tempfile for logs: %s" err]
    | inl name =>
        let tmpFile := Some name in
        let fs0 := <[name := ""%string]> (files w) in
        let ch := logTestSucceeded w in
        let logState_CollectedAt := env_Now2 env in
        let pk := package_loop (env_WriteString env) name 0 readyLogLines
                    (mkPackState fs0 0 readyLogLines []) in
        let readyLogLines := pk_readyLogLines pk in
        let fs := pk_files pk in
        let tr := pk_trace pk in
        let backendLogLines := group_by_backend readyLogLines in
        let '(logFile_LogLines, querySamples) :=
          analyze_groups env (env_range env (map_to_list backendLogLines)) [] [] in
        let logFile := mkLogFile (env_NewV4 env) tmpFile logFile_LogLines in
        if (length logFile_LogLines =? 0)%nat && (length querySamples =? 0)%nat then
          let logState := mkLogState logState_CollectedAt [] querySamples in
          mkResult (Returned RetNothingToSend tooFreshLogLines)
                   (mkWorld (LogState_Cleanup env logState fs) ch) tr
        else
          let logState := mkLogState logState_CollectedAt [logFile] querySamples in
          if DebugLogs globalCollectionOpts then
            let content := default ""%string (fs !! name) in
            mkResult (Returned RetDebug tooFreshLogLines)
                     (mkWorld (LogState_Cleanup env logState fs) ch)
                     (tr ++ [EvPrintInfo "Would have sent log state:\n";
                             EvPrintDebugInfo content logFile_LogLines querySamples])
          else if TestRun globalCollectionOpts then
            match test_loop server logFile_LogLines ch tr with
            | (Some ch', tr') =>
                mkResult (Returned RetTestRun tooFreshLogLines)
                         (mkWorld (LogState_Cleanup env logState fs) ch') tr'
            | (None, tr') =>
                (* blocked in a send: the channel has neither a receiver nor
                   a free slot left, and [Cleanup] is never reached *)
                mkResult Blocked (mkWorld fs (mkChan 0 0)) tr'
            end
          else
            let res := GetLogsGrant env server globalCollectionOpts in
            let tr := tr ++ [EvGetLogsGrant server globalCollectionOpts res] in
            match res with
            | inr err =>
                mkResult (Returned RetGrantError logLines)
                         (mkWorld (LogState_Cleanup env logState fs) ch)
                         (tr ++ [EvPrintError "Could not get log grant: %s" err])
            | inl grant =>
                if negb (Valid grant) then
                  mkResult (Returned RetGrantDenied tooFreshLogLines)
                           (mkWorld (LogState_Cleanup env logState fs) ch)
                           (tr ++ [EvPrintVerbose "Log collection disabled from server, skipping"])
                else
                  let ures := UploadAndSendLogs env server grant globalCollectionOpts logState in
                  let tr := tr ++ [EvUploadAndSendLogs server grant globalCollectionOpts
                                     logState fs ures] in
                  match ures with
                  | Some err =>
                      mkResult (Returned RetUploadError logLines)
                               (mkWorld (LogState_Cleanup env logState fs) ch)
                               (tr ++ [EvPrintError "Failed to upload/send logs: %s" err])
                  | None =>
                      mkResult (Returned RetUploaded tooFreshLogLines)
                               (mkWorld (LogState_Cleanup env logState fs) ch) tr
                  end
            end
    end.

(** ** Vocabulary of the statements *)

(** The text a run of fragments adds to the line that absorbs it. *)
Definition fragments_text (frs : list LogLine) : string :=
  fold_right (fun f s => " " +:+ Content f +:+ s) ""%string frs.

(** A line lengthened by the fragments that follow it. *)
Definition absorb (p : LogLine) (frs : list LogLine) : LogLine :=
  set_Content (Content p +:+ fragments_text frs) p.

(** The remaining input does not begin with a fragment. *)
Definition starts_classified (post : list LogLine) : Prop :=
  match post with
  | [] => True
  | q :: _ => is_fragment q = false
  end.

(** The test of the windower, and the age the specification speaks of. *)
Definition is_ready (now : Z) (l : LogLine) : bool :=
  3 * Time.Second <? Time.Sub now (CollectedAt l).

Definition age (now : Z) (l : LogLine) : Z := now - CollectedAt l.

(** The return statements that hand back the whole input. *)
Definition is_retry (path : ExitPath) : bool :=
  match path with
  | RetTempFileError | RetGrantError | RetUploadError => true
  | _ => false
  end.

Definition is_upload (e : Event) : bool :=
  match e with
  | EvUploadAndSendLogs _ _ _ _ _ _ => true
  | _ => false
  end.

Definition is_grant_request (e : Event) : bool :=
  match e with
  | EvGetLogsGrant _ _ _ => true
  | _ => false
  end.

Definition is_send (e : Event) : bool :=
  match e with
  | EvSendTestSucceeded _ => true
  | _ => false
  end.

(** Events that never reach the control plane, the upload or the test
    channel. *)
Definition is_local (e : Event) : bool :=
  negb (is_upload e) && negb (is_grant_request e) && negb (is_send e).

(** The bytes of a batch: the contents one after the other. *)
Definition concat_contents (ls : list LogLine) : string :=
  fold_right (fun l s => Content l +:+ s) ""%string ls.

(** The sum of the lengths of the contents. *)
Definition total_length (ls : list LogLine) : Z :=
  fold_right (fun l n => Z.of_nat (String.length (Content l)) + n) 0 ls.

(** The bytes of the store from offset [first] to offset [last], both
    inclusive. *)
Definition slice (store : string) (first last : Z) : string :=
  String.substring (Z.to_nat first) (Z.to_nat (last - first + 1)) store.

(** What the packager records when nothing fails and nothing wraps. *)
Fixpoint packaged_from (start : Z) (todo : list LogLine) : list LogLine :=
  match todo with
  | [] => []
  | l :: rest =>
      let n := Z.of_nat (String.length (Content l)) in
      set_Bytes start start (start + n - 1) l :: packaged_from (start + n) rest
  end.

(** The packager as [AnalyzeInGroupsAndSend] runs it on a fresh store. *)
Definition run_packager (env : Env) (name : string) (fs : gmap string string)
    (readyLogLines : list LogLine) : PackState :=
  package_loop (env_WriteString env) name 0 readyLogLines
    (mkPackState (<[name := ""%string]> fs) 0 readyLogLines []).

(** *** The shape shared by the stitcher and the joiner

    Both loops keep some lines and merge every other line into the last
    line kept so far, dropping it when nothing has been kept yet. *)
Section MergeLoop.
Context {A : Type} (keep : A -> bool) (merge : A -> A -> A).

Fixpoint merge_loop (acc ls : list A) : list A :=
  match ls with
  | [] => acc
  | l :: rest =>
      if keep l then merge_loop (acc ++ [l]) rest
      else if (0 <? length acc)%nat then merge_loop (update_last (merge l) acc) rest
      else merge_loop acc rest
  end.

(** The lines at the head of [ls] that are not kept. *)
Fixpoint leading_dropped (ls : list A) : list A :=
  match ls with
  | [] => []
  | l :: rest => if keep l then [] else l :: leading_dropped rest
  end.

(** Every kept line with the run of lines merged into it. *)
Fixpoint segments (ls : list A) : list (A * list A) :=
  match ls with
  | [] => []
  | l :: rest =>
      if keep l then (l, leading_dropped rest) :: segments rest
      else segments rest
  end.

Definition merge_all (h : A) (cs : list A) : A :=
  fold_left (fun p c => merge c p) cs h.
End MergeLoop.

(** The joiner keeps the lines with a known level. *)
Definition is_classified (l : LogLine) : bool :=
  negb (bool_decide (LogLevelOf l = LogLevel_UNKNOWN)).

(** A classified line together with the continuations joined into it. *)
Definition joined (h : LogLine) (conts : list LogLine) : LogLine :=
  merge_all join_into h conts.

(** The lines of backend [pid], in arrival order. *)
Definition lines_of_backend (pid : Z) (ls : list LogLine) : list LogLine :=
  List.filter (fun l => BackendPid l =? pid) ls.

(** The end offset after joining: the [int64] sum of the end offset and
    the lengths of the continuations. *)
Definition joined_ByteEnd (e : Z) (conts : list LogLine) : Z :=
  fold_left (fun e c => Int64.add e (len64 (Content c))) conts e.

(** The output lines and samples of a batch: the analyzer's results on
    the joined groups of the packaged ready lines. *)
Definition output_of (env : Env) (name : string) (fs : gmap string string)
    (readyLogLines : list LogLine) : list LogLine * list QuerySample :=
  analyze_groups env
    (env_range env
       (map_to_list
          (group_by_backend (pk_readyLogLines (run_packager env name fs readyLogLines)))))
    [] [].

(** [Cleanup] is a method of the envelope: it can reach the stores of
    the artifacts the envelope holds, and no other. *)
Definition cleanup_frame (env : Env) : Prop :=
  forall ls fs name,
    (forall logFile, In logFile (LogFiles ls) -> TmpFile logFile <> Some name) ->
    LogState_Cleanup env ls fs !! name = fs !! name.

(** [Cleanup] deletes the store of every artifact the envelope holds. *)
Definition cleanup_deletes (env : Env) : Prop :=
  forall ls fs logFile name,
    In logFile (LogFiles ls) -> TmpFile logFile = Some name ->
    LogState_Cleanup env ls fs !! name = None.

(** The return statements reached after the temporary store has been
    allocated. *)
Definition after_allocation (path : ExitPath) : bool :=
  match path with
  | RetNothingReady | RetTempFileError => false
  | _ => true
  end.

(** The number of sends the test channel can still complete: the
    receives the observer will perform and the free buffer slots. *)
Definition chan_capacity (c : Chan) : nat := (chan_receives c + chan_free c)%nat.

Definition sends_of (tr : list Event) : list Event := List.filter is_send tr.

(** The stores handed to the upload calls of a trace. *)
Definition upload_stores (tr : list Event) : list (gmap string string) :=
  flat_map (fun e => match e with
                     | EvUploadAndSendLogs _ _ _ _ store _ => [store]
                     | _ => []
                     end) tr.

(** The line records handed to the upload calls of a trace. *)
Definition upload_lines (tr : list Event) : list LogLine :=
  flat_map (fun e => match e with
                     | EvUploadAndSendLogs _ _ _ ls _ _ => flat_map LogLines (LogFiles ls)
                     | _ => []
                     end) tr.

(** [b] is [a] with other byte offsets: what the packager may do to a
    line. *)
Definition same_but_bytes (a b : LogLine) : Prop :=
  b = set_Bytes (ByteStart b) (ByteContentStart b) (ByteEnd b) a.

(** The stitcher keeps the lines that have a level or a backend id, and
    merges a fragment into the kept line before it. *)
Definition has_origin (l : LogLine) : bool := negb (is_fragment l).

Definition stitch_merge (fragment p : LogLine) : LogLine :=
  set_Content (Content p +:+ " " +:+ Content fragment) p.

(** A line without its text; a line without its text and end offset. *)
Definition without_content (l : LogLine) : LogLine := set_Content ""%string l.

Definition without_content_end (l : LogLine) : LogLine :=
  set_ByteEnd 0 (set_Content ""%string l).

(** The calls of a trace that leave the host: grant requests and
    uploads. *)
Definition network_calls (tr : list Event) : list Event :=
  List.filter (fun e => is_grant_request e || is_upload e) tr.

(** All lines of all groups of the grouper's map. *)
Definition grouped_lines (m : gmap Z (list LogLine)) : list LogLine :=
  flat_map snd (map_to_list m).

(** The age test of the specification for a too-fresh line. *)
Definition is_too_fresh (now : Z) (l : LogLine) : bool :=
  age now l <=? 3 * Time.Second.

(** ** Sample data for the concrete runs *)

Definition sec : Z := Time.Second.

Definition ERROR : LogLevel := LogLevel_Known 5.

(** A raw line as the log sources hand it over: no offsets, no
    classification, no details yet. *)
Definition raw_line (collectedAt : Z) (level : LogLevel) (pid : Z) (content : string) : LogLine :=
  mkLogLine collectedAt level pid content 0 0 0 Classification_UNKNOWN ∅.

(** A stand-in for the analyzer that hands every joined line back
    unclassified and extracts no sample. *)
Definition stub_analyzer (ls : list LogLine) : list LogLine * list QuerySample := (ls, []).

Definition sample_grant (valid : bool) : Grant :=
  mkGrant valid (mkGrantConfig "srv" "" (mkGrantFeatures true false 0 30000))
          "https://bucket.example" ∅ "".

(** Clock at 10s, temporary file "logs.tmp", every write succeeds, groups
    visited in the order of [map_to_list]. *)
Definition sample_env (analyzer : list LogLine -> list LogLine * list QuerySample)
    (grant : Grant + error) (upload : option error) : Env :=
  mkEnv (10 * sec) (10 * sec) 1 (inl "logs.tmp"%string) (fun _ => WriteOk) (fun groups => groups)
        analyzer (fun _ _ => grant) (fun _ _ _ _ => upload) LogState_Cleanup_stores.

Definition sample_opts (testRun debugLogs : bool) : CollectionOpts :=
  mkCollectionOpts false false false false false false true false false "" false
                   true testRun "" false debugLogs false "" false false.

Definition sample_server : Server :=
  mkServer (mkServerConfig "pganalyze") "prefer" (sample_grant true).

Definition sample_world (receives free : nat) : World :=
  mkWorld ∅ (mkChan receives free).

(** Observed 6s ago: ready. *)
Definition readyLine : LogLine := raw_line (4 * sec) ERROR 100 "syntax error".
(** Observed 1s ago: too fresh. *)
Definition freshLine : LogLine := raw_line (9 * sec) ERROR 7 "deadlock detected".
Definition freshFragment : LogLine := raw_line (9 * sec) LogLevel_UNKNOWN 0 "at character 5".

(** A stand-in for the analyzer that classifies every joined line as the
    collector's identity marker of section "pganalyze". *)
Definition identify_analyzer (ls : list LogLine) : list LogLine * list QuerySample :=
  (map (fun l => mkLogLine (CollectedAt l) (LogLevelOf l) (BackendPid l) (Content l)
                   (ByteStart l) (ByteContentStart l) (ByteEnd l)
                   PGA_COLLECTOR_IDENTIFY
                   {[ "config_section"%string := "pganalyze"%string ]}) ls,
   []).

(** Ready, of unknown level, with a backend id: it survives stitching
    and has no classified line before it in its backend group. *)
Definition orphanLine : LogLine := raw_line (4 * sec) LogLevel_UNKNOWN 5 "orphan".

(** * Properties *)

(** ** Machine integers and time *)

Lemma Int64_wrap_small z : Int64.in_range z -> Int64.wrap z = z.
Proof.
  unfold Int64.in_range, Int64.wrap, Int64.modulus, Int64.min_signed, Int64.max_signed.
  intros Hz. rewrite Z.mod_small; lia.
Qed.

Lemma Int64_wrap_in_range z : Int64.in_range (Int64.wrap z).
Proof.
  unfold Int64.in_range, Int64.wrap, Int64.modulus, Int64.min_signed, Int64.max_signed.
  pose proof (Z.mod_pos_bound (z + 2 ^ 63) (2 ^ 64)). lia.
Qed.

Lemma Int64_add_small a b : Int64.in_range (a + b) -> Int64.add a b = a + b.
Proof. apply Int64_wrap_small. Qed.

Lemma Int64_sub_small a b : Int64.in_range (a - b) -> Int64.sub a b = a - b.
Proof. apply Int64_wrap_small. Qed.

Lemma Time_Sub_gt_3s t u :
  (3 * Time.Second <? Time.Sub t u) = (3 * Time.Second <? t - u).
Proof.
  unfold Time.Sub, Time.Second, Int64.max_signed, Int64.min_signed.
  repeat case_match; lia.
Qed.

(** ** Strings *)

Lemma string_app_cons (x : ascii) (a b : string) :
  String x a +:+ b = String x (a +:+ b).
Proof. reflexivity. Qed.

Lemma string_app_nil_l (b : string) : "" +:+ b = b.
Proof. reflexivity. Qed.

Lemma string_app_assoc (a b c : string) : (a +:+ b) +:+ c = a +:+ b +:+ c.
Proof.
  induction a as [|x a IH]; [reflexivity |].
  rewrite !string_app_cons. f_equal. exact IH.
Qed.

Lemma string_app_nil_r (a : string) : a +:+ "" = a.
Proof.
  induction a as [|x a IH]; [reflexivity |].
  rewrite string_app_cons. f_equal. exact IH.
Qed.

Lemma string_length_app (a b : string) :
  String.length (a +:+ b) = (String.length a + String.length b)%nat.
Proof.
  induction a as [|x a IH]; [reflexivity |].
  rewrite string_app_cons. simpl. f_equal. exact IH.
Qed.

(** ** Updating the last element of a slice *)

Lemma update_last_length {A} (f : A -> A) (s : list A) :
  length (update_last f s) = length s.
Proof. unfold update_last. apply length_alter. Qed.

Lemma update_last_snoc {A} (f : A -> A) (s : list A) (x : A) :
  update_last f (s ++ [x]) = s ++ [f x].
Proof.
  unfold update_last. rewrite length_app. simpl.
  replace (pred (length s + 1)) with (length s + 0)%nat by lia.
  by rewrite alter_app_r.
Qed.

Lemma update_last_app {A} (f : A -> A) (a b : list A) :
  b <> [] -> update_last f (a ++ b) = a ++ update_last f b.
Proof.
  intros Hb. destruct (exists_last Hb) as (b' & x & ->).
  rewrite app_assoc, !update_last_snoc. by rewrite app_assoc.
Qed.

Lemma update_last_nonempty {A} (f : A -> A) (b : list A) :
  b <> [] -> update_last f b <> [].
Proof.
  intros Hb Hu. apply Hb. apply length_zero_iff_nil.
  rewrite <- (update_last_length f b), Hu. reflexivity.
Qed.

(** ** The stitcher *)

Lemma stitch_test_fragment (l : LogLine) :
  negb (bool_decide (LogLevelOf l = LogLevel_UNKNOWN)) || negb (BackendPid l =? 0)
  = negb (is_fragment l).
Proof. unfold is_fragment. by rewrite negb_andb. Qed.

Lemma stitch_loop_nonfragment acc l rest :
  is_fragment l = false ->
  stitch_loop acc (l :: rest) = stitch_loop (acc ++ [l]) rest.
Proof. intros H. simpl. by rewrite stitch_test_fragment, H. Qed.

Lemma stitch_loop_fragment_snoc acc p l rest :
  is_fragment l = true ->
  stitch_loop (acc ++ [p]) (l :: rest)
  = stitch_loop (acc ++ [set_Content (Content p +:+ " " +:+ Content l) p]) rest.
Proof.
  intros H. simpl. rewrite stitch_test_fragment, H. simpl.
  rewrite length_app. simpl.
  replace (0 <? length acc + 1)%nat with true by (symmetry; apply Nat.ltb_lt; lia).
  by rewrite update_last_snoc.
Qed.

Lemma stitch_loop_app acc xs ys :
  stitch_loop acc (xs ++ ys) = stitch_loop (stitch_loop acc xs) ys.
Proof.
  revert acc. induction xs as [|x xs IH]; intros acc; simpl; [reflexivity |].
  repeat case_match; apply IH.
Qed.

Lemma stitch_loop_fragment_free ls :
  forall acc,
    Forall (fun l => is_fragment l = false) ls -> stitch_loop acc ls = acc ++ ls.
Proof.
  induction ls as [|l ls IH]; intros acc H; simpl; [by rewrite app_nil_r |].
  inversion H as [|? ? Hl Hls]; subst.
  rewrite stitch_test_fragment, Hl. simpl. rewrite IH by done.
  by rewrite <- app_assoc.
Qed.

Lemma stitch_loop_prefix a b rest :
  b <> [] -> stitch_loop (a ++ b) rest = a ++ stitch_loop b rest.
Proof.
  revert b. induction rest as [|l rest IH]; intros b Hb; simpl; [reflexivity |].
  destruct (negb (bool_decide (LogLevelOf l = LogLevel_UNKNOWN)) || negb (BackendPid l =? 0)).
  - rewrite <- app_assoc. apply IH. by destruct b.
  - assert (Hlb : (0 <? length b)%nat = true).
    { apply Nat.ltb_lt. destruct b; [done | simpl; lia]. }
    assert (Hlab : (0 <? length (a ++ b))%nat = true).
    { apply Nat.ltb_lt. rewrite length_app. apply Nat.ltb_lt in Hlb. lia. }
    rewrite Hlb, Hlab, update_last_app by done.
    apply IH. by apply update_last_nonempty.
Qed.

Lemma stitch_leading_fragments lead rest :
  Forall (fun f => is_fragment f = true) lead ->
  stitch (lead ++ rest) = stitch rest.
Proof.
  unfold stitch. induction 1 as [|f lead Hf _ IH]; simpl; [reflexivity |].
  rewrite stitch_test_fragment, Hf. simpl. exact IH.
Qed.

Lemma absorb_step p f frs :
  absorb (set_Content (Content p +:+ " " +:+ Content f) p) frs = absorb p (f :: frs).
Proof.
  unfold absorb. destruct p as [t lv pid c s cs e cl d]. unfold set_Content.
  cbn [Content CollectedAt LogLevelOf BackendPid ByteStart ByteContentStart
       ByteEnd Classification Details fragments_text fold_right].
  f_equal. by rewrite !string_app_assoc.
Qed.

Lemma stitch_loop_absorb acc p frs rest :
  Forall (fun f => is_fragment f = true) frs ->
  stitch_loop (acc ++ [p]) (frs ++ rest) = stitch_loop (acc ++ [absorb p frs]) rest.
Proof.
  intros H. revert p. induction H as [|f frs Hf _ IH]; intros p.
  - simpl. unfold absorb. simpl. rewrite string_app_nil_r. by destruct p.
  - simpl app. rewrite stitch_loop_fragment_snoc by done.
    rewrite IH. by rewrite absorb_step.
Qed.

Lemma stitch_loop_starts_classified p post :
  starts_classified post -> stitch_loop [p] post = p :: stitch post.
Proof.
  destruct post as [|q post]; simpl starts_classified; intros H; [reflexivity |].
  unfold stitch. rewrite !stitch_loop_nonfragment by done.
  apply (stitch_loop_prefix [p] [q]). done.
Qed.

Lemma stitch_line_with_fragments pre L frs post :
  is_fragment L = false ->
  Forall (fun f => is_fragment f = true) frs ->
  starts_classified post ->
  stitch (pre ++ L :: frs ++ post) = stitch pre ++ absorb L frs :: stitch post.
Proof.
  intros HL Hfrs Hpost. unfold stitch at 1.
  rewrite stitch_loop_app. fold (stitch pre).
  rewrite stitch_loop_nonfragment by done.
  rewrite stitch_loop_absorb by done.
  rewrite (stitch_loop_prefix (stitch pre) [absorb L frs]) by done.
  by rewrite stitch_loop_starts_classified.
Qed.

(** C5 (as amended).  Stitching property: when the input holds a
    classified line [L] (level known or backend id nonzero) immediately
    followed by a fragment [F], then by the further fragments [frs] that
    directly follow [F] (none, when the next line is classified or the
    input ends), the stitched output holds, between the stitched lines
    before [L] and the stitched lines after the run, one single line for
    the whole run: its content is
    [L.content + " " + F.content] followed by [" " + content] of every
    fragment of [frs] (so exactly [L.content + " " + F.content] when
    [frs] is empty), and all its other attributes are those of [L].
    Fragments at the head of the input, before any non-fragment line,
    are discarded. *)
Theorem stitching_property (pre : list LogLine) (L F : LogLine) (frs post : list LogLine) :
  is_fragment L = false ->
  is_fragment F = true ->
  Forall (fun f => is_fragment f = true) frs ->
  starts_classified post ->
  let L' := absorb L (F :: frs) in
  stitch (pre ++ L :: F :: frs ++ post) = stitch pre ++ L' :: stitch post
  /\ Content L' = Content L +:+ " " +:+ Content F +:+ fragments_text frs
  /\ (frs = [] -> Content L' = Content L +:+ " " +:+ Content F)
  /\ L' = set_Content (Content L') L
  /\ (CollectedAt L' = CollectedAt L /\ LogLevelOf L' = LogLevelOf L
      /\ BackendPid L' = BackendPid L /\ ByteStart L' = ByteStart L
      /\ ByteContentStart L' = ByteContentStart L /\ ByteEnd L' = ByteEnd L
      /\ Classification L' = Classification L /\ Details L' = Details L)
  /\ (forall lead rest,
        Forall (fun f => is_fragment f = true) lead ->
        stitch (lead ++ rest) = stitch rest).
Proof.
  intros HL HF Hfrs Hpost L'. repeat split.
  - apply (stitch_line_with_fragments pre L (F :: frs) post); auto.
  - intros ->. subst L'. unfold absorb. simpl. by rewrite string_app_nil_r.
  - apply stitch_leading_fragments.
Qed.

Lemma stitching_property_witness :
  stitch [raw_line 1 LogLevel_UNKNOWN 0 "lost";
          raw_line 2 ERROR 100 "syntax error";
          raw_line 3 LogLevel_UNKNOWN 0 "at character 5";
          raw_line 4 ERROR 7 "next"]
  = [raw_line 2 ERROR 100 "syntax error at character 5"; raw_line 4 ERROR 7 "next"].
Proof.
  pose proof (stitching_property
                [raw_line 1 LogLevel_UNKNOWN 0 "lost"]
                (raw_line 2 ERROR 100 "syntax error")
                (raw_line 3 LogLevel_UNKNOWN 0 "at character 5")
                [] [raw_line 4 ERROR 7 "next"]
                eq_refl eq_refl (List.Forall_nil _) eq_refl) as [H _].
  exact H.
Defined.

(** C5 as it is worded fails when a second fragment follows [F]: the
    run is stitched into one line whose content also carries the second
    fragment, and no stitched line has the content
    [L.content + " " + F.content]. *)
Lemma stitching_second_fragment_counterexample :
  let L := raw_line 2 ERROR 100 "syntax error" in
  let F := raw_line 3 LogLevel_UNKNOWN 0 "at character 5" in
  let F2 := raw_line 3 LogLevel_UNKNOWN 0 "near SELECT" in
  is_fragment L = false /\ is_fragment F = true
  /\ stitch [L; F; F2] = [raw_line 2 ERROR 100 "syntax error at character 5 near SELECT"]
  /\ ~ (exists l, In l (stitch [L; F; F2])
                 /\ Content l = Content L +:+ " " +:+ Content F).
Proof.
  intros L F F2. repeat split.
  intros (l & Hin & Hc). vm_compute in Hin, Hc.
  destruct Hin as [<- | []]. discriminate Hc.
Qed.

(** ** The readiness windower *)

Lemma is_ready_age now l : is_ready now l = true <-> 3 * Time.Second < age now l.
Proof.
  unfold is_ready, age. rewrite Time_Sub_gt_3s. apply Z.ltb_lt.
Qed.

Lemma is_ready_false_age now l : is_ready now l = false <-> age now l <= 3 * Time.Second.
Proof.
  unfold is_ready, age. rewrite Time_Sub_gt_3s. apply Z.ltb_ge.
Qed.

Lemma window_loop_filter now r f xs :
  window_loop now r f xs
  = (r ++ List.filter (is_ready now) xs,
     f ++ List.filter (fun l => negb (is_ready now l)) xs).
Proof.
  revert r f. induction xs as [|x xs IH]; intros r f; simpl.
  - by rewrite !app_nil_r.
  - fold (is_ready now x). destruct (is_ready now x); simpl; rewrite IH;
      by rewrite <- app_assoc.
Qed.

Lemma window_filter now xs :
  window now xs
  = (List.filter (is_ready now) xs, List.filter (fun l => negb (is_ready now l)) xs).
Proof. unfold window. by rewrite window_loop_filter. Qed.

Lemma ready_of_filter now ls :
  ready_of now ls = List.filter (is_ready now) (stitch ls).
Proof. unfold ready_of. by rewrite window_filter. Qed.

Lemma tooFresh_of_filter now ls :
  tooFresh_of now ls = List.filter (fun l => negb (is_ready now l)) (stitch ls).
Proof. unfold tooFresh_of. by rewrite window_filter. Qed.

Lemma in_ready_of now ls l :
  In l (ready_of now ls) <-> In l (stitch ls) /\ 3 * Time.Second < age now l.
Proof. rewrite ready_of_filter, filter_In, is_ready_age. tauto. Qed.

Lemma in_tooFresh_of now ls l :
  In l (tooFresh_of now ls) <-> In l (stitch ls) /\ age now l <= 3 * Time.Second.
Proof.
  rewrite tooFresh_of_filter, filter_In, negb_true_iff, is_ready_false_age. tauto.
Qed.

Lemma ready_tooFresh_cover now ls l :
  In l (stitch ls) <-> In l (ready_of now ls) \/ In l (tooFresh_of now ls).
Proof.
  rewrite in_ready_of, in_tooFresh_of. split; [|tauto]. intros H.
  destruct (Z_lt_le_dec (3 * Time.Second) (age now l)); tauto.
Qed.

Lemma ready_tooFresh_disjoint now ls l :
  In l (ready_of now ls) -> ~ In l (tooFresh_of now ls).
Proof. rewrite in_ready_of, in_tooFresh_of. intros [_ H1] [_ H2]. lia. Qed.

(** ** The dispatcher: which backlog each return statement hands back *)

Lemma backlog_by_path env server logLines opts w path backlog :
  outcome (AnalyzeInGroupsAndSend env server logLines opts w) = Returned path backlog ->
  backlog = if is_retry path then logLines else tooFresh_of (env_Now env) logLines.
Proof.
  unfold AnalyzeInGroupsAndSend, tooFresh_of.
  destruct (window (env_Now env) (stitch logLines)) as [ready tooFresh].
  intros H. destruct path; simpl; revert H;
    repeat case_match; simpl; intros [= <-]; reflexivity.
Qed.

(** ** What the invocation does to the outside *)

Lemma package_loop_trace write name idx todo st e :
  In e (pk_trace (package_loop write name idx todo st)) ->
  In e (pk_trace st) \/ is_local e = true.
Proof.
  revert idx st. induction todo as [|l todo IH]; intros idx st; simpl; [tauto |].
  destruct (write idx) as [|n err]; simpl.
  - intros H. apply IH in H. exact H.
  - rewrite in_app_iff. simpl. intros [H | [<- | []]]; [by left | by right].
Qed.

Lemma test_loop_trace server lines ch tr o tr' e :
  test_loop server lines ch tr = (o, tr') ->
  In e tr' ->
  In e tr \/ e = EvSendTestSucceeded true.
Proof.
  revert ch tr. induction lines as [|l lines IH]; intros ch tr; simpl.
  - intros [= <- <-]. tauto.
  - destruct (is_identify server l); [| apply IH].
    destruct (chan_send ch) as [ch'|].
    + intros Ht Hin. specialize (IH _ _ Ht Hin).
      rewrite in_app_iff in IH. simpl in IH. intuition congruence.
    + intros [= <- <-]. tauto.
Qed.

Ltac trace_cases H :=
  repeat first
    [ progress (simpl in H)
    | rewrite in_app_iff in H
    | match type of H with
      | _ \/ _ => destruct H as [H | H]
      | False => destruct H
      | In _ (pk_trace (package_loop _ _ _ _ _)) =>
          apply package_loop_trace in H; simpl in H
      | In _ ?tr' =>
          match goal with
          | Ht : test_loop _ _ _ _ = (_, tr') |- _ =>
              apply (test_loop_trace _ _ _ _ _ _ _ Ht) in H
          end
      | _ = _ => discriminate H
      end ].

(** A failed grant request is always answered by the retry return. *)
Lemma grant_error_path env server logLines opts w s o err :
  In (EvGetLogsGrant s o (inr err))
     (trace (AnalyzeInGroupsAndSend env server logLines opts w)) ->
  outcome (AnalyzeInGroupsAndSend env server logLines opts w)
  = Returned RetGrantError logLines.
Proof.
  unfold AnalyzeInGroupsAndSend.
  destruct (window (env_Now env) (stitch logLines)) as [ready tooFresh].
  repeat case_match; simpl; intros Hin; try reflexivity; exfalso.
  all: trace_cases Hin.
Qed.

(** A failed upload is always answered by the retry return. *)
Lemma upload_error_path env server logLines opts w s g o ls st err :
  In (EvUploadAndSendLogs s g o ls st (Some err))
     (trace (AnalyzeInGroupsAndSend env server logLines opts w)) ->
  outcome (AnalyzeInGroupsAndSend env server logLines opts w)
  = Returned RetUploadError logLines.
Proof.
  unfold AnalyzeInGroupsAndSend.
  destruct (window (env_Now env) (stitch logLines)) as [ready tooFresh].
  repeat case_match; simpl; intros Hin; try reflexivity; exfalso.
  all: trace_cases Hin.
Qed.

(** A grant that denies log collection is always answered by the drop
    return, and the upload is never called. *)
Lemma grant_denied_path env server logLines opts w s o g :
  In (EvGetLogsGrant s o (inl g))
     (trace (AnalyzeInGroupsAndSend env server logLines opts w)) ->
  Valid g = false ->
  outcome (AnalyzeInGroupsAndSend env server logLines opts w)
  = Returned RetGrantDenied (tooFresh_of (env_Now env) logLines)
  /\ forall e, In e (trace (AnalyzeInGroupsAndSend env server logLines opts w)) ->
               is_upload e = false.
Proof.
  unfold AnalyzeInGroupsAndSend, tooFresh_of.
  destruct (window (env_Now env) (stitch logLines)) as [ready tooFresh].
  repeat case_match; simpl; intros Hin Hvalid;
    try (exfalso; trace_cases Hin; simplify_eq;
         repeat match goal with
                | Hn : negb (Valid _) = _ |- _ => rewrite Hvalid in Hn; simpl in Hn
                end; congruence).
  split; [reflexivity |]. intros e He. clear Hin.
  trace_cases He; simplify_eq; try reflexivity.
  all: unfold is_local in He; destruct (is_upload e); [discriminate | reflexivity].
Qed.

(** ** Retry and drop *)

(** C2 (as amended).  Full-retry property: whenever the grant request
    fails or the upload fails, the function returns its original full
    input [logLines], the raw lines as they were before stitching, line
    for line and in the original order, however many lines were ready.
    The lines judged ready and the lines judged too-fresh are together
    exactly the lines that stitching this returned input yields; the
    return value is set-equal to their union when the input holds no
    fragment. *)
Theorem full_retry_property env server logLines opts w :
  let R := AnalyzeInGroupsAndSend env server logLines opts w in
  (exists s o err, In (EvGetLogsGrant s o (inr err)) (trace R))
  \/ (exists s g o ls st err, In (EvUploadAndSendLogs s g o ls st (Some err)) (trace R)) ->
  exists path backlog,
    outcome R = Returned path backlog
    /\ (path = RetGrantError \/ path = RetUploadError)
    /\ backlog = logLines
    /\ (forall l, In l backlog <-> In l logLines)
    /\ (forall l, In l (stitch backlog)
                  <-> In l (ready_of (env_Now env) logLines)
                      \/ In l (tooFresh_of (env_Now env) logLines))
    /\ (Forall (fun l => is_fragment l = false) logLines ->
        forall l, In l backlog
                  <-> In l (ready_of (env_Now env) logLines)
                      \/ In l (tooFresh_of (env_Now env) logLines)).
Proof.
  assert (Hfree : Forall (fun l => is_fragment l = false) logLines ->
                  forall l, In l logLines
                            <-> In l (ready_of (env_Now env) logLines)
                                \/ In l (tooFresh_of (env_Now env) logLines)).
  { intros Hf l. rewrite <- ready_tooFresh_cover. unfold stitch.
    by rewrite stitch_loop_fragment_free. }
  intros R [(s & o & err & H) | (s & g & o & ls & st & err & H)].
  - exists RetGrantError, logLines. split; [| split; [| split; [| split; [| split]]]].
    + eapply grant_error_path, H.
    + by left.
    + reflexivity.
    + reflexivity.
    + intros l. apply ready_tooFresh_cover.
    + exact Hfree.
  - exists RetUploadError, logLines. split; [| split; [| split; [| split; [| split]]]].
    + eapply upload_error_path, H.
    + by right.
    + reflexivity.
    + reflexivity.
    + intros l. apply ready_tooFresh_cover.
    + exact Hfree.
Qed.

Lemma full_retry_property_witness :
  exists path backlog,
    outcome (AnalyzeInGroupsAndSend
               (sample_env stub_analyzer (inr "connection refused"%string) None)
               sample_server [readyLine; freshLine] (sample_opts false false)
               (sample_world 0 0))
    = Returned path backlog
    /\ (path = RetGrantError \/ path = RetUploadError)
    /\ backlog = [readyLine; freshLine]
    /\ (forall l, In l backlog <-> In l [readyLine; freshLine])
    /\ (forall l, In l (stitch backlog)
                  <-> In l (ready_of (10 * sec) [readyLine; freshLine])
                      \/ In l (tooFresh_of (10 * sec) [readyLine; freshLine]))
    /\ (Forall (fun l => is_fragment l = false) [readyLine; freshLine] ->
        forall l, In l backlog
                  <-> In l (ready_of (10 * sec) [readyLine; freshLine])
                      \/ In l (tooFresh_of (10 * sec) [readyLine; freshLine])).
Proof.
  apply (full_retry_property
           (sample_env stub_analyzer (inr "connection refused"%string) None)
           sample_server [readyLine; freshLine] (sample_opts false false)
           (sample_world 0 0)).
  left. exists sample_server, (sample_opts false false), "connection refused"%string.
  vm_compute. tauto.
Defined.

(** C2 as it is worded fails when the input holds a fragment: the grant
    request fails, the three raw lines come back, and the fragment among
    them is neither a ready nor a too-fresh line (those are the two
    stitched lines), so the return value is not set-equal to the union
    of the ready and the too-fresh lines. *)
Lemma full_retry_union_counterexample :
  let env := sample_env stub_analyzer (inr "connection refused"%string) None in
  let input := [readyLine; freshLine; freshFragment] in
  outcome (AnalyzeInGroupsAndSend env sample_server input (sample_opts false false)
             (sample_world 0 0))
  = Returned RetGrantError input
  /\ ready_of (env_Now env) input = [readyLine]
  /\ tooFresh_of (env_Now env) input
     = [raw_line (9 * sec) ERROR 7 "deadlock detected at character 5"]
  /\ In freshFragment input
  /\ ~ (In freshFragment (ready_of (env_Now env) input)
        \/ In freshFragment (tooFresh_of (env_Now env) input)).
Proof.
  intros env input. split; [vm_compute; reflexivity |].
  split; [vm_compute; reflexivity |]. split; [vm_compute; reflexivity |].
  split; [vm_compute; tauto |].
  intros H. vm_compute in H. intuition discriminate.
Qed.

Lemma is_too_fresh_spec now l :
  is_too_fresh now l = true <-> age now l <= 3 * Time.Second.
Proof. unfold is_too_fresh. apply Z.leb_le. Qed.

Lemma tooFresh_of_age now ls :
  tooFresh_of now ls = List.filter (is_too_fresh now) (stitch ls).
Proof.
  rewrite tooFresh_of_filter. apply List.filter_ext. intros l.
  unfold is_too_fresh, is_ready, age. rewrite Time_Sub_gt_3s.
  symmetry. apply Z.leb_antisym.
Qed.

(** C7 (as amended).  Drop property: when the grant is obtained and
    denies log collection ([Valid = false]), the function returns
    exactly the stitched lines whose age (now minus observation time)
    is at most 3 seconds, in their order: these are the too-fresh lines
    after stitching, and they are the too-fresh subset of the input
    itself when the input holds no fragment.  No stitched line older
    than 3 seconds (no ready line) is in the return value, and the
    invocation makes no upload call. *)
Theorem drop_property env server logLines opts w s o g :
  let R := AnalyzeInGroupsAndSend env server logLines opts w in
  let now := env_Now env in
  In (EvGetLogsGrant s o (inl g)) (trace R) ->
  Valid g = false ->
  exists backlog,
    outcome R = Returned RetGrantDenied backlog
    /\ backlog = List.filter (is_too_fresh now) (stitch logLines)
    /\ (forall l, In l backlog
                  <-> In l (stitch logLines) /\ age now l <= 3 * Time.Second)
    /\ (forall l, 3 * Time.Second < age now l -> ~ In l backlog)
    /\ (forall l, In l (ready_of now logLines) -> ~ In l backlog)
    /\ (Forall (fun l => is_fragment l = false) logLines ->
        backlog = List.filter (is_too_fresh now) logLines)
    /\ (forall e, In e (trace R) -> is_upload e = false).
Proof.
  intros R now Hin Hvalid.
  destruct (grant_denied_path _ _ _ _ _ _ _ _ Hin Hvalid) as [Hout Hup].
  exists (tooFresh_of now logLines).
  split; [exact Hout |]. split; [apply tooFresh_of_age |].
  split; [intros l; apply in_tooFresh_of |].
  split; [intros l Hage; rewrite in_tooFresh_of; lia |].
  split; [intros l; apply ready_tooFresh_disjoint |].
  split; [| exact Hup].
  intros Hfree. rewrite tooFresh_of_age. unfold stitch.
  by rewrite stitch_loop_fragment_free.
Qed.

Lemma drop_property_witness :
  exists backlog,
    outcome (AnalyzeInGroupsAndSend
               (sample_env stub_analyzer (inl (sample_grant false)) None)
               sample_server [readyLine; freshLine] (sample_opts false false)
               (sample_world 0 0))
    = Returned RetGrantDenied backlog
    /\ backlog = [freshLine].
Proof.
  destruct (drop_property
              (sample_env stub_analyzer (inl (sample_grant false)) None)
              sample_server [readyLine; freshLine] (sample_opts false false)
              (sample_world 0 0)
              sample_server (sample_opts false false) (sample_grant false))
    as (backlog & Hout & Hb & _).
  - vm_compute. tauto.
  - reflexivity.
  - exists backlog. split; [exact Hout |]. rewrite Hb. vm_compute. reflexivity.
Defined.

(** C7 as it is worded fails when a too-fresh input line is a fragment:
    the line observed 1s ago is stitched into the ready line before it,
    the denied batch is dropped, and the function returns no line at
    all, although the too-fresh subset of its input holds that line. *)
Lemma drop_fragment_counterexample :
  let env := sample_env stub_analyzer (inl (sample_grant false)) None in
  let input := [readyLine; freshFragment] in
  age (env_Now env) freshFragment <= 3 * Time.Second
  /\ List.filter (is_too_fresh (env_Now env)) input = [freshFragment]
  /\ outcome (AnalyzeInGroupsAndSend env sample_server input (sample_opts false false)
                (sample_world 0 0))
     = Returned RetGrantDenied []
  /\ In (EvGetLogsGrant sample_server (sample_opts false false) (inl (sample_grant false)))
        (trace (AnalyzeInGroupsAndSend env sample_server input (sample_opts false false)
                  (sample_world 0 0))).
Proof.
  intros env input. split; [vm_compute; discriminate |].
  split; [vm_compute; reflexivity |]. split; [vm_compute; reflexivity |].
  vm_compute. tauto.
Qed.

(** The scenario of the specification: with the denying grant the call
    on [readyLine; freshLine] returns exactly [freshLine]. *)
Example drop_scenario :
  outcome (AnalyzeInGroupsAndSend
             (sample_env stub_analyzer (inl (sample_grant false)) None)
             sample_server [readyLine; freshLine] (sample_opts false false)
             (sample_world 0 0))
  = Returned RetGrantDenied [freshLine].
Proof. vm_compute. reflexivity. Qed.

(** ** Windowing *)

(** C4 (as amended).  Windowing property: a stitched line whose age
    (now minus observation time) is at most 3 seconds never appears in
    the ready set and always appears unmodified in the too-fresh set.
    The too-fresh set is the backlog returned on every return path
    except the three full-retry paths (temporary-store allocation
    failure, grant request failure, upload failure); on those the
    backlog is the raw input, which yields the same line again when it
    is stitched on the next tick. *)
Theorem windowing_property env server logLines opts w l :
  In l (stitch logLines) ->
  age (env_Now env) l <= 3 * Time.Second ->
  ~ In l (ready_of (env_Now env) logLines)
  /\ In l (tooFresh_of (env_Now env) logLines)
  /\ forall path backlog,
       outcome (AnalyzeInGroupsAndSend env server logLines opts w)
       = Returned path backlog ->
       (is_retry path = false ->
        backlog = tooFresh_of (env_Now env) logLines /\ In l backlog)
       /\ (is_retry path = true -> backlog = logLines /\ In l (stitch backlog)).
Proof.
  intros Hin Hage.
  assert (Hfresh : In l (tooFresh_of (env_Now env) logLines)).
  { apply in_tooFresh_of. by split. }
  split; [| split].
  - rewrite in_ready_of. intros [_ H]. lia.
  - exact Hfresh.
  - intros path backlog Hout. apply backlog_by_path in Hout.
    split; intros Hp; rewrite Hp in Hout; subst backlog; by split.
Qed.

Lemma windowing_property_witness :
  ~ In freshLine (ready_of (10 * sec) [readyLine; freshLine])
  /\ In freshLine (tooFresh_of (10 * sec) [readyLine; freshLine])
  /\ forall path backlog,
       outcome (AnalyzeInGroupsAndSend
                  (sample_env stub_analyzer (inl (sample_grant true)) None)
                  sample_server [readyLine; freshLine] (sample_opts false false)
                  (sample_world 0 0))
       = Returned path backlog ->
       (is_retry path = false ->
        backlog = tooFresh_of (10 * sec) [readyLine; freshLine] /\ In freshLine backlog)
       /\ (is_retry path = true ->
           backlog = [readyLine; freshLine] /\ In freshLine (stitch backlog)).
Proof.
  apply (windowing_property
           (sample_env stub_analyzer (inl (sample_grant true)) None)
           sample_server [readyLine; freshLine] (sample_opts false false)
           (sample_world 0 0) freshLine).
  - vm_compute. tauto.
  - vm_compute. discriminate.
Defined.

(** C4 as it is worded fails on a full-retry path when the too-fresh
    line has absorbed a fragment: the grant request fails, the raw input
    comes back, and the stitched too-fresh line is not among the
    returned lines. *)
Lemma windowing_retry_counterexample :
  let env := sample_env stub_analyzer (inr "connection refused"%string) None in
  let input := [readyLine; freshLine; freshFragment] in
  let l := raw_line (9 * sec) ERROR 7 "deadlock detected at character 5" in
  In l (stitch input)
  /\ age (env_Now env) l <= 3 * Time.Second
  /\ outcome (AnalyzeInGroupsAndSend env sample_server input (sample_opts false false)
                (sample_world 0 0))
     = Returned RetGrantError input
  /\ ~ In l input.
Proof.
  intros env input l. split; [| split; [| split]].
  - vm_compute. tauto.
  - vm_compute. discriminate.
  - vm_compute. reflexivity.
  - intros H. vm_compute in H. intuition discriminate.
Qed.

(** ** The packager *)

Lemma file_append_append name a b fs :
  file_append name b (file_append name a fs) = file_append name (a +:+ b) fs.
Proof.
  unfold file_append. apply map_eq. intros k.
  destruct (decide (name = k)) as [<- | Hne].
  - rewrite !lookup_alter_eq. destruct (fs !! name); simpl; [| done].
    by rewrite string_app_assoc.
  - by rewrite !lookup_alter_ne.
Qed.

Lemma file_append_nil name fs : file_append name "" fs = fs.
Proof.
  unfold file_append. apply map_eq. intros k.
  destruct (decide (name = k)) as [<- | Hne].
  - rewrite lookup_alter_eq. destruct (fs !! name); simpl; [| done].
    by rewrite string_app_nil_r.
  - by rewrite lookup_alter_ne.
Qed.

Lemma total_length_nonneg ls : 0 <= total_length ls.
Proof. induction ls; simpl; lia. Qed.

Lemma total_length_app a b : total_length (a ++ b) = total_length a + total_length b.
Proof. induction a; simpl; lia. Qed.

Lemma total_length_take_le ls i j :
  (i <= j)%nat -> total_length (take i ls) <= total_length (take j ls).
Proof.
  intros Hij. replace j with (i + (j - i))%nat by lia.
  rewrite <- take_take_drop.
  rewrite total_length_app. pose proof (total_length_nonneg (take (j - i) (drop i ls))). lia.
Qed.

Lemma len64_small (c : string) :
  Z.of_nat (String.length c) <= Int64.max_signed ->
  len64 c = Z.of_nat (String.length c).
Proof.
  intros H. unfold len64. apply Int64_wrap_small.
  unfold Int64.in_range, Int64.min_signed. split; [| exact H].
  pose proof (Nat2Z.is_nonneg (String.length c)). lia.
Qed.

(** When every write succeeds and the offsets fit an [int64], the loop
    appends all contents and records the plain sums. *)
Lemma package_loop_all_ok write name todo :
  forall idx done cur fs tr,
    (forall k, (k < length todo)%nat -> write (idx + k)%nat = WriteOk) ->
    length done = idx ->
    0 <= cur ->
    cur + total_length todo <= Int64.max_signed ->
    package_loop write name idx todo (mkPackState fs cur (done ++ todo) tr)
    = mkPackState (file_append name (concat_contents todo) fs)
                  (cur + total_length todo)
                  (done ++ packaged_from cur todo) tr.
Proof.
  induction todo as [|l todo IH]; intros idx done cur fs tr Hw Hlen Hcur Hfit.
  - simpl. rewrite file_append_nil. f_equal. lia.
  - simpl in Hfit. pose proof (total_length_nonneg todo) as Hnn.
    pose proof (Nat2Z.is_nonneg (String.length (Content l))) as Hn.
    simpl package_loop.
    rewrite <- (Nat.add_0_r idx) at 1. rewrite (Hw 0%nat) by (simpl; lia).
    cbn [pk_currentByteStart pk_files pk_readyLogLines pk_trace].
    rewrite len64_small by lia.
    rewrite Int64_add_small
      by (unfold Int64.in_range, Int64.min_signed, Int64.max_signed in *; lia).
    rewrite Int64_sub_small
      by (unfold Int64.in_range, Int64.min_signed, Int64.max_signed in *; lia).
    replace (<[idx:=_]> (done ++ l :: todo))
      with ((done ++ [set_Bytes cur cur
                        (cur + Z.of_nat (String.length (Content l)) - 1) l]) ++ todo).
    2:{ rewrite <- Hlen, <- (Nat.add_0_r (length done)), insert_app_r. simpl.
        by rewrite <- app_assoc. }
    rewrite IH.
    + rewrite file_append_append. simpl. rewrite <- app_assoc. simpl.
      f_equal. lia.
    + intros k Hk. replace (S idx + k)%nat with (idx + S k)%nat by lia.
      apply Hw. simpl. lia.
    + rewrite length_app. simpl. lia.
    + lia.
    + lia.
Qed.

Lemma packaged_from_length start todo :
  length (packaged_from start todo) = length todo.
Proof. revert start. induction todo; intros start; simpl; [done | by rewrite IHtodo]. Qed.

Lemma packaged_from_lookup todo :
  forall start i l,
    todo !! i = Some l ->
    packaged_from start todo !! i
    = Some (let o := start + total_length (take i todo) in
            set_Bytes o o (o + Z.of_nat (String.length (Content l)) - 1) l).
Proof.
  induction todo as [|x todo IH]; intros start i l Hi; [done |].
  destruct i as [|i]; simpl in *.
  - injection Hi as ->. do 2 f_equal; lia.
  - rewrite (IH _ _ _ Hi). simpl. do 2 f_equal; lia.
Qed.

Lemma concat_contents_app a b :
  concat_contents (a ++ b) = concat_contents a +:+ concat_contents b.
Proof.
  induction a as [|x a IH]; simpl; [reflexivity |].
  by rewrite IH, string_app_assoc.
Qed.

Lemma concat_contents_length ls :
  Z.of_nat (String.length (concat_contents ls)) = total_length ls.
Proof.
  induction ls as [|x ls IH]; simpl; [reflexivity |].
  rewrite string_length_app. lia.
Qed.

Lemma substring_app_exact (b c : string) :
  String.substring 0 (String.length b) (b +:+ c) = b.
Proof.
  induction b as [|x b IH].
  - rewrite string_app_nil_l. destruct c; reflexivity.
  - rewrite string_app_cons. simpl. by rewrite IH.
Qed.

Lemma substring_app_middle (a b c : string) :
  String.substring (String.length a) (String.length b) (a +:+ b +:+ c) = b.
Proof.
  induction a as [|x a IH].
  - rewrite string_app_nil_l. apply substring_app_exact.
  - rewrite string_app_cons. simpl. exact IH.
Qed.

Lemma slice_middle (before : list LogLine) (l : LogLine) (after : list LogLine) :
  let o := total_length before in
  slice (concat_contents (before ++ l :: after)) o
        (o + Z.of_nat (String.length (Content l)) - 1)
  = Content l.
Proof.
  intros o. unfold slice. rewrite concat_contents_app. simpl.
  subst o. rewrite <- concat_contents_length, Nat2Z.id.
  replace (Z.to_nat _) with (String.length (Content l)) by lia.
  apply substring_app_middle.
Qed.

Lemma run_packager_all_ok env name fs ready :
  (forall i, (i < length ready)%nat -> env_WriteString env i = WriteOk) ->
  total_length ready <= Int64.max_signed ->
  run_packager env name fs ready
  = mkPackState (<[name := concat_contents ready]> fs) (total_length ready)
                (packaged_from 0 ready) [].
Proof.
  intros Hw Hfit. unfold run_packager.
  rewrite (package_loop_all_ok _ name ready 0%nat [] 0) by (simpl; auto; lia).
  simpl. f_equal. unfold file_append. apply map_eq. intros k.
  destruct (decide (name = k)) as [<- | Hne].
  - by rewrite lookup_alter_eq, !lookup_insert_eq.
  - by rewrite lookup_alter_ne, !lookup_insert_ne.
Qed.

(** X25.  Byte ranges as the packager records them, before the joiner
    runs: when the contents
    [c1..cN] of the ready lines are all written successfully, in order,
    into the fresh store (whose size, the sum of the lengths, is a file
    offset and so fits an [int64]), then the store holds exactly the
    contents one after the other and, for every [i], the line recorded
    at position [i] is the ready line [i] with
    [ByteStart = ByteContentStart =] the sum of the lengths of all
    earlier contents and [ByteEnd = ByteStart + len(c_i) - 1]; slicing
    the store at [ByteStart, ByteEnd] gives back [c_i]; and for two
    recorded lines [i < j], line [j] starts at or after the end of line
    [i] plus one. *)
Theorem byte_range_invariant env name fs ready :
  (forall i, (i < length ready)%nat -> env_WriteString env i = WriteOk) ->
  total_length ready <= Int64.max_signed ->
  let pk := run_packager env name fs ready in
  let store := default ""%string (pk_files pk !! name) in
  store = concat_contents ready
  /\ length (pk_readyLogLines pk) = length ready
  /\ (forall i l,
        ready !! i = Some l ->
        exists l',
          pk_readyLogLines pk !! i = Some l'
          /\ l' = set_Bytes (ByteStart l') (ByteContentStart l') (ByteEnd l') l
          /\ ByteStart l' = total_length (take i ready)
          /\ ByteContentStart l' = ByteStart l'
          /\ ByteEnd l' = ByteStart l' + Z.of_nat (String.length (Content l)) - 1
          /\ slice store (ByteStart l') (ByteEnd l') = Content l)
  /\ (forall i j li lj,
        (i < j)%nat ->
        pk_readyLogLines pk !! i = Some li ->
        pk_readyLogLines pk !! j = Some lj ->
        ByteEnd li + 1 <= ByteStart lj).
Proof.
  intros Hw Hfit pk store. subst store pk.
  rewrite run_packager_all_ok by assumption. simpl.
  rewrite lookup_insert_eq. simpl.
  split; [reflexivity |]. split; [apply packaged_from_length |]. split.
  - intros i l Hi. eexists. split; [by apply packaged_from_lookup |].
    simpl. repeat split; try lia.
    rewrite <- (take_drop_middle ready i l Hi) at 1.
    apply slice_middle.
  - intros i j li lj Hij Hli Hlj.
    assert (is_Some (ready !! i)) as [xi Hxi].
    { apply lookup_lt_is_Some. rewrite <- (packaged_from_length 0).
      by eapply lookup_lt_Some. }
    assert (is_Some (ready !! j)) as [xj Hxj].
    { apply lookup_lt_is_Some. rewrite <- (packaged_from_length 0).
      by eapply lookup_lt_Some. }
    rewrite (packaged_from_lookup _ _ _ _ Hxi) in Hli.
    rewrite (packaged_from_lookup _ _ _ _ Hxj) in Hlj.
    injection Hli as <-. injection Hlj as <-. simpl.
    pose proof (total_length_take_le ready (S i) j Hij) as Hle.
    rewrite (take_S_r _ _ _ Hxi), total_length_app in Hle. simpl in Hle. lia.
Qed.

Lemma byte_range_invariant_witness :
  pk_readyLogLines
    (run_packager (sample_env stub_analyzer (inl (sample_grant true)) None)
       "logs.tmp" ∅
       [raw_line (4 * sec) ERROR 100 "syntax error";
        raw_line (4 * sec) ERROR 7 "";
        raw_line (5 * sec) ERROR 100 "at character 5"])
  !! 2%nat
  = Some (mkLogLine (5 * sec) ERROR 100 "at character 5" 12 12 25 Classification_UNKNOWN ∅)
  /\ slice "syntax errorat character 5" 12 25 = "at character 5"%string.
Proof.
  pose proof (byte_range_invariant
                (sample_env stub_analyzer (inl (sample_grant true)) None)
                "logs.tmp" ∅
                [raw_line (4 * sec) ERROR 100 "syntax error";
                 raw_line (4 * sec) ERROR 7 "";
                 raw_line (5 * sec) ERROR 100 "at character 5"]
                (fun _ _ => eq_refl)
                ltac:(vm_compute; discriminate)) as (_ & _ & H & _).
  destruct (H 2%nat _ eq_refl) as (l' & Hl' & Hset & Hs & Hcs & He & Hslice).
  rewrite Hl'. rewrite Hset, Hcs, He, Hs. split; [reflexivity |].
  rewrite He, Hs in Hslice. exact Hslice.
Defined.

(** C1, at the failing input.  Three ready lines of two backends, the
    continuation of the first backend's statement arriving after a line
    of the second: ["select "] (backend 1), ["update "] (backend 2),
    ["1"] (backend 1, level unknown).  Every write succeeds and the
    store is ["select update 1"].  The packager records the ranges
    0..6, 7..13 and 14..14; the joiner then appends ["1"] to the first
    line and adds its length to that line's end offset, as if the
    continuation lay right behind the line in the store.  The line
    record handed on for the analysis and the upload has content
    ["select 1"] and the range 0..7: the store sliced at that range is
    ["select u"], not the content, and the range overlaps the range
    7..13 of the second backend's line, which starts before the first
    line's end plus one. *)
Theorem joined_range_overlaps_other_backend :
  let a1 := raw_line (4 * sec) ERROR 1 "select " in
  let b1 := raw_line (4 * sec) ERROR 2 "update " in
  let a2 := raw_line (4 * sec) LogLevel_UNKNOWN 1 "1" in
  let R := AnalyzeInGroupsAndSend
             (sample_env stub_analyzer (inl (sample_grant true)) None)
             sample_server [a1; b1; a2] (sample_opts false false) (sample_world 0 0) in
  let joined1 := mkLogLine (4 * sec) ERROR 1 "select 1" 0 0 7 Classification_UNKNOWN ∅ in
  let packed2 := mkLogLine (4 * sec) ERROR 2 "update " 7 7 13 Classification_UNKNOWN ∅ in
  outcome R = Returned RetUploaded []
  /\ pk_readyLogLines
       (run_packager (sample_env stub_analyzer (inl (sample_grant true)) None)
          "logs.tmp" ∅ [a1; b1; a2])
     = [mkLogLine (4 * sec) ERROR 1 "select " 0 0 6 Classification_UNKNOWN ∅;
        packed2;
        mkLogLine (4 * sec) LogLevel_UNKNOWN 1 "1" 14 14 14 Classification_UNKNOWN ∅]
  /\ upload_lines (trace R) = [packed2; joined1]
  /\ map (fun st => st !! "logs.tmp"%string) (upload_stores (trace R))
     = [Some "select update 1"%string]
  /\ slice "select update 1" (ByteStart joined1) (ByteEnd joined1) = "select u"%string
  /\ slice "select update 1" (ByteStart joined1) (ByteEnd joined1) <> Content joined1
  /\ ~ (ByteEnd joined1 + 1 <= ByteStart packed2).
Proof.
  intros a1 b1 a2 R joined1 packed2.
  split; [vm_compute; reflexivity |]. split; [vm_compute; reflexivity |].
  split; [vm_compute; reflexivity |]. split; [vm_compute; reflexivity |].
  split; [vm_compute; reflexivity |]. split; [vm_compute; discriminate |].
  vm_compute. intros H. apply H. reflexivity.
Qed.

(** ** Loops that merge into the last kept line *)

Section MergeLoopFacts.
Context {A : Type} (keep : A -> bool) (merge : A -> A -> A).


Lemma merge_loop_snoc acc p ls :
  merge_loop keep merge (acc ++ [p]) ls
  = acc ++ merge_all merge p (leading_dropped keep ls)
        :: map (fun hc => merge_all merge hc.1 hc.2) (segments keep ls).
Proof.
  revert acc p. induction ls as [|l ls IH]; intros acc p; simpl; [reflexivity |].
  destruct (keep l); simpl.
  - rewrite IH. by rewrite <- app_assoc.
  - rewrite length_app. simpl.
    replace (0 <? length acc + 1)%nat with true by (symmetry; apply Nat.ltb_lt; lia).
    rewrite update_last_snoc. apply IH.
Qed.

Lemma merge_loop_segments ls :
  merge_loop keep merge [] ls
  = map (fun hc => merge_all merge hc.1 hc.2) (segments keep ls).
Proof.
  induction ls as [|l ls IH]; simpl; [reflexivity |].
  destruct (keep l); simpl; [| exact IH].
  apply (merge_loop_snoc [] l ls).
Qed.

Lemma segments_dropped ls rest :
  Forall (fun l => keep l = false) ls ->
  segments keep (ls ++ rest) = segments keep rest.
Proof. induction 1 as [|l ls Hl _ IH]; simpl; [reflexivity | by rewrite Hl]. Qed.

End MergeLoopFacts.

Section SegmentsFacts.
Context {A : Type} (keep : A -> bool).

Lemma leading_dropped_in ls c :
  In c (leading_dropped keep ls) -> In c ls /\ keep c = false.
Proof.
  induction ls as [|l ls IH]; simpl; [tauto |].
  destruct (keep l) eqn:Hl; simpl; [tauto |].
  intros [<- | H]; [by split; [left |] |]. apply IH in H. tauto.
Qed.

Lemma segments_in ls h cs :
  In (h, cs) (segments keep ls) ->
  In h ls /\ keep h = true /\ forall c, In c cs -> In c ls /\ keep c = false.
Proof.
  induction ls as [|l ls IH]; simpl; [tauto |].
  destruct (keep l) eqn:Hl; simpl.
  - intros [[= <- <-] | H].
    + split; [by left |]. split; [done |].
      intros c Hc. apply leading_dropped_in in Hc. tauto.
    + apply IH in H. destruct H as (H1 & H2 & H3).
      split; [by right |]. split; [done |].
      intros c Hc. apply H3 in Hc. tauto.
  - intros H. apply IH in H. destruct H as (H1 & H2 & H3).
    split; [by right |]. split; [done |].
    intros c Hc. apply H3 in Hc. tauto.
Qed.
End SegmentsFacts.

(** ** The backend grouper *)

Lemma group_fold_lookup xs :
  forall (m : gmap Z (list LogLine)) p,
    fold_left group_step xs m !! p
    = match lines_of_backend p xs with
      | [] => m !! p
      | ls => Some (default [] (m !! p) ++ ls)
      end.
Proof.
  induction xs as [|x xs IH]; intros m p; simpl; [reflexivity |].
  rewrite IH. unfold group_step.
  destruct (BackendPid x =? p) eqn:Hp.
  - apply Z.eqb_eq in Hp. subst p. rewrite lookup_insert_eq. simpl.
    destruct (lines_of_backend (BackendPid x) xs) as [|y ys].
    + reflexivity.
    + by rewrite <- app_assoc.
  - apply Z.eqb_neq in Hp. by rewrite lookup_insert_ne.
Qed.

Lemma group_by_backend_lookup ready p :
  group_by_backend ready !! p
  = match lines_of_backend p ready with
    | [] => None
    | ls => Some ls
    end.
Proof.
  unfold group_by_backend. rewrite group_fold_lookup, lookup_empty.
  by destruct (lines_of_backend p ready).
Qed.

Lemma group_by_backend_Some ready p group :
  group_by_backend ready !! p = Some group ->
  group = lines_of_backend p ready /\ group <> [].
Proof.
  rewrite group_by_backend_lookup.
  destruct (lines_of_backend p ready); [done |]. intros [= <-]. by split.
Qed.

(** The groups the analysis loop ranges over are these and no others. *)
Lemma groups_visited ready p group :
  (p, group) ∈ map_to_list (group_by_backend ready) ->
  group = lines_of_backend p ready /\ group <> [].
Proof. intros H. apply elem_of_map_to_list in H. by apply group_by_backend_Some. Qed.

Lemma lines_of_backend_in p ls l :
  In l (lines_of_backend p ls) <-> In l ls /\ BackendPid l = p.
Proof. unfold lines_of_backend. rewrite filter_In, Z.eqb_eq. tauto. Qed.

(** ** The joiner *)

Lemma join_loop_merge_loop acc ls :
  join_loop acc ls = merge_loop is_classified join_into acc ls.
Proof.
  revert acc. induction ls as [|l ls IH]; intros acc; simpl; [reflexivity |].
  unfold is_classified at 1. by rewrite !IH.
Qed.

Lemma join_segments ls :
  join ls = map (fun hc => joined hc.1 hc.2) (segments is_classified ls).
Proof. unfold join. rewrite join_loop_merge_loop. apply merge_loop_segments. Qed.



Lemma joined_fields h cs :
  joined h cs
  = set_ByteEnd (joined_ByteEnd (ByteEnd h) cs)
                (set_Content (Content h +:+ concat_contents cs) h).
Proof.
  revert h. unfold joined, merge_all, joined_ByteEnd.
  induction cs as [|c cs IH]; intros h; simpl.
  - rewrite string_app_nil_r. by destruct h.
  - rewrite IH. destruct h. unfold join_into, set_ByteEnd, set_Content. simpl.
    by rewrite string_app_assoc.
Qed.

Section LeadingDroppedApp.
Context {A : Type} (keep : A -> bool).

End LeadingDroppedApp.


Lemma join_unanchored pre rest :
  Forall (fun c => is_classified c = false) pre ->
  join (pre ++ rest) = join rest.
Proof.
  intros H. rewrite !join_segments. by rewrite segments_dropped.
Qed.

(** ** Backend isolation *)

(** C6.  Backend isolation property: the group the joiner receives for
    backend [p] consists of exactly the ready lines of backend [p], in
    arrival order, whatever lines of other backends are interleaved with
    them; every line the joiner produces for that group is a classified
    line of backend [p] with the contents of continuation lines of the
    same backend [p] appended, so two lines of different backends are
    never merged. *)
Theorem backend_isolation ready p group :
  group_by_backend ready !! p = Some group ->
  group = lines_of_backend p ready
  /\ join group = map (fun hc => joined hc.1 hc.2) (segments is_classified group)
  /\ (forall h conts,
        In (h, conts) (segments is_classified group) ->
        (In h ready /\ BackendPid h = p)
        /\ (forall c, In c conts -> In c ready /\ BackendPid c = p)
        /\ BackendPid (joined h conts) = p
        /\ Content (joined h conts) = Content h +:+ concat_contents conts
        /\ (forall a b, In a (h :: conts) -> In b (h :: conts) ->
                        BackendPid a = BackendPid b))
  /\ (forall ready',
        lines_of_backend p ready' = lines_of_backend p ready ->
        group_by_backend ready' !! p = Some group).
Proof.
  intros Hg. pose proof (group_by_backend_Some _ _ _ Hg) as [-> Hne].
  split; [reflexivity |]. split; [apply join_segments |]. split.
  - intros h conts Hin. apply segments_in in Hin. destruct Hin as (Hh & _ & Hc).
    apply lines_of_backend_in in Hh.
    assert (Hconts : forall c, In c conts -> In c ready /\ BackendPid c = p).
    { intros c Hcin. apply Hc in Hcin. destruct Hcin as [Hcin _].
      by apply lines_of_backend_in in Hcin. }
    split; [exact Hh |]. split; [exact Hconts |].
    rewrite joined_fields. simpl. split; [tauto |]. split; [reflexivity |].
    intros a b [<- | Ha] [<- | Hb]; try apply Hconts in Ha; try apply Hconts in Hb;
      destruct Hh; intuition congruence.
  - intros ready' Heq. rewrite group_by_backend_lookup, Heq.
    rewrite group_by_backend_lookup in Hg. exact Hg.
Qed.

Lemma backend_isolation_witness :
  let a1 := raw_line (4 * sec) ERROR 1 "select " in
  let b1 := raw_line (4 * sec) ERROR 2 "update " in
  let a2 := raw_line (4 * sec) LogLevel_UNKNOWN 1 "1" in
  let b2 := raw_line (4 * sec) LogLevel_UNKNOWN 2 "t" in
  join [a1; a2] = [joined a1 [a2]]
  /\ Content (joined a1 [a2]) = "select 1"%string
  /\ group_by_backend [b1; a1; a2; b2] !! 1 = Some [a1; a2].
Proof.
  intros a1 b1 a2 b2.
  destruct (backend_isolation [a1; b1; a2; b2] 1 [a1; a2] eq_refl)
    as (_ & Hjoin & Hseg & Hany).
  split; [exact Hjoin |]. split.
  - destruct (Hseg a1 [a2] (or_introl eq_refl)) as (_ & _ & _ & Hc & _). exact Hc.
  - apply Hany. reflexivity.
Defined.

(** ** Continuations *)





(** ** Release of the temporary store *)

Lemma package_loop_store_exists write name idx todo st :
  is_Some (pk_files st !! name) ->
  is_Some (pk_files (package_loop write name idx todo st) !! name).
Proof.
  revert idx st. induction todo as [|l todo IH]; intros idx st Hst; simpl; [done |].
  destruct (write idx) as [|n err]; simpl.
  - apply IH. simpl. unfold file_append. rewrite lookup_alter_eq.
    by apply fmap_is_Some.
  - unfold file_append. rewrite lookup_alter_eq. by apply fmap_is_Some.
Qed.

Lemma run_packager_store_exists env name fs ready :
  is_Some (pk_files (run_packager env name fs ready) !! name).
Proof.
  apply package_loop_store_exists. simpl. rewrite lookup_insert_eq. by eexists.
Qed.

(** The world every return statement after the allocation leaves
    behind: [Cleanup] applied to the envelope as it is at that point.
    The envelope holds the artifact on every such path but the
    nothing-to-send one, where [LogFiles] has not been assigned yet. *)
Lemma world_by_path env server logLines opts w path backlog :
  outcome (AnalyzeInGroupsAndSend env server logLines opts w) = Returned path backlog ->
  after_allocation path = true ->
  exists name ls,
    env_TempFile env = inl name
    /\ files (world (AnalyzeInGroupsAndSend env server logLines opts w))
       = LogState_Cleanup env ls
           (pk_files (run_packager env name (files w) (ready_of (env_Now env) logLines)))
    /\ LogFiles ls
       = if decide (path = RetNothingToSend) then []
         else [mkLogFile (env_NewV4 env) (Some name)
                 (output_of env name (files w) (ready_of (env_Now env) logLines)).1].
Proof.
  unfold AnalyzeInGroupsAndSend, output_of, run_packager, ready_of.
  destruct (window (env_Now env) (stitch logLines)) as [ready tooFresh]. simpl fst.
  repeat case_match; simpl; intros [= <- <-]; try discriminate; intros _;
    eexists _, _; (split; [reflexivity |]); (split; [reflexivity |]);
    simpl;
    try match goal with
        | Ha : analyze_groups _ _ [] [] = _ |- _ => rewrite Ha
        end;
    reflexivity.
Qed.

Lemma nothing_to_send_keeps_store env server logLines opts w backlog :
  cleanup_frame env ->
  outcome (AnalyzeInGroupsAndSend env server logLines opts w)
  = Returned RetNothingToSend backlog ->
  exists name,
    env_TempFile env = inl name
    /\ is_Some (files (world (AnalyzeInGroupsAndSend env server logLines opts w)) !! name).
Proof.
  intros Hframe Hout.
  destruct (world_by_path _ _ _ _ _ _ _ Hout eq_refl) as (name & ls & Hname & Hfiles & Hls).
  exists name. split; [exact Hname |]. rewrite Hfiles.
  rewrite Hframe.
  - apply run_packager_store_exists.
  - rewrite Hls. simpl. tauto.
Qed.

Lemma other_paths_release_store env server logLines opts w path backlog :
  cleanup_deletes env ->
  outcome (AnalyzeInGroupsAndSend env server logLines opts w) = Returned path backlog ->
  after_allocation path = true ->
  path <> RetNothingToSend ->
  exists name,
    env_TempFile env = inl name
    /\ files (world (AnalyzeInGroupsAndSend env server logLines opts w)) !! name = None.
Proof.
  intros Hdel Hout Hafter Hne.
  destruct (world_by_path _ _ _ _ _ _ _ Hout Hafter) as (name & ls & Hname & Hfiles & Hls).
  exists name. split; [exact Hname |]. rewrite Hfiles.
  rewrite decide_False in Hls by exact Hne.
  eapply Hdel; [rewrite Hls; by left | reflexivity].
Qed.

Lemma LogFile_Cleanup_lookup_None lf fs name :
  fs !! name = None -> LogFile_Cleanup lf fs !! name = None.
Proof.
  intros H. unfold LogFile_Cleanup. destruct (TmpFile lf) as [n |]; [| done].
  rewrite lookup_delete. by case_decide.
Qed.

Lemma Cleanup_stores_lookup_None logFiles :
  forall fs name,
    fs !! name = None ->
    fold_left (fun fs logFile => LogFile_Cleanup logFile fs) logFiles fs !! name = None.
Proof.
  induction logFiles as [|lf lfs IH]; intros fs name H; simpl; [done |].
  apply IH. by apply LogFile_Cleanup_lookup_None.
Qed.

Lemma Cleanup_stores_frame logFiles :
  forall fs name,
    (forall lf, In lf logFiles -> TmpFile lf <> Some name) ->
    fold_left (fun fs logFile => LogFile_Cleanup logFile fs) logFiles fs !! name
    = fs !! name.
Proof.
  induction logFiles as [|lf lfs IH]; intros fs name H; simpl; [done |].
  rewrite IH by (intros lf' Hin; apply H; by right).
  unfold LogFile_Cleanup. pose proof (H lf (or_introl eq_refl)) as Hlf.
  destruct (TmpFile lf) as [n |]; [| done].
  apply lookup_delete_ne. congruence.
Qed.

Lemma Cleanup_stores_deletes logFiles :
  forall fs lf name,
    In lf logFiles -> TmpFile lf = Some name ->
    fold_left (fun fs logFile => LogFile_Cleanup logFile fs) logFiles fs !! name = None.
Proof.
  induction logFiles as [|x lfs IH]; intros fs lf name Hin Hlf; simpl; [done |].
  destruct Hin as [-> | Hin].
  - apply Cleanup_stores_lookup_None. unfold LogFile_Cleanup. rewrite Hlf.
    apply lookup_delete_eq.
  - by eapply IH.
Qed.

Lemma sample_env_cleanup_frame analyzer grant upload :
  cleanup_frame (sample_env analyzer grant upload).
Proof. intros ls fs name Hno. simpl. by apply Cleanup_stores_frame. Qed.

Lemma sample_env_cleanup_deletes analyzer grant upload :
  cleanup_deletes (sample_env analyzer grant upload).
Proof. intros ls fs lf name Hin Hlf. simpl. by eapply Cleanup_stores_deletes. Qed.

(** With the release as the specification describes it, the store is
    gone after every return that follows the allocation, except the
    nothing-to-send return, after which it is always still there. *)
Lemma sample_env_store_after_return analyzer grant upload server logLines opts w path backlog :
  let R := AnalyzeInGroupsAndSend (sample_env analyzer grant upload) server logLines opts w in
  outcome R = Returned path backlog ->
  after_allocation path = true ->
  if decide (path = RetNothingToSend)
  then is_Some (files (world R) !! "logs.tmp"%string)
  else files (world R) !! "logs.tmp"%string = None.
Proof.
  intros R Hout Hafter. case_decide as Hp.
  - subst path.
    destruct (nothing_to_send_keeps_store _ _ _ _ _ _
                (sample_env_cleanup_frame analyzer grant upload) Hout)
      as (name & [= <-] & H). exact H.
  - destruct (other_paths_release_store _ _ _ _ _ _ _
                (sample_env_cleanup_deletes analyzer grant upload) Hout Hafter Hp)
      as (name & [= <-] & H). exact H.
Qed.

(** C3, at the failing input.  One ready line of unknown level with a
    backend id: the joiner keeps nothing of it, the analyzer produces
    no line and no sample, and the function returns through the
    nothing-to-send path.  [logState.Cleanup()] runs there while the
    envelope holds no artifact yet ([LogFiles] is assigned only after
    this return), so the temporary store, with the line's bytes in it,
    still exists when the function has returned. *)
Theorem nothing_to_send_leaks_store :
  let R := AnalyzeInGroupsAndSend
             (sample_env stub_analyzer (inl (sample_grant true)) None)
             sample_server [orphanLine] (sample_opts false false) (sample_world 0 0) in
  outcome R = Returned RetNothingToSend []
  /\ files (world R) !! "logs.tmp"%string = Some "orphan"%string.
Proof. vm_compute. split; reflexivity. Qed.

(** On every other return path after the allocation the same run
    releases the store; here the upload path. *)
Example upload_releases_store :
  let R := AnalyzeInGroupsAndSend
             (sample_env stub_analyzer (inl (sample_grant true)) None)
             sample_server [readyLine] (sample_opts false false) (sample_world 0 0) in
  outcome R = Returned RetUploaded []
  /\ files (world R) !! "logs.tmp"%string = None.
Proof. vm_compute. split; reflexivity. Qed.

(** ** The test-run branch *)

Lemma chan_send_Some ch :
  (0 < chan_capacity ch)%nat ->
  exists ch', chan_send ch = Some ch' /\ chan_capacity ch' = pred (chan_capacity ch).
Proof.
  destruct ch as [[|r] [|f]]; unfold chan_capacity, chan_send; simpl; intros H;
    try lia; eexists; (split; [reflexivity |]); simpl; lia.
Qed.

Lemma chan_send_None ch : chan_capacity ch = 0%nat -> chan_send ch = None.
Proof. destruct ch as [[|r] [|f]]; unfold chan_capacity; simpl; intros H; [done | lia..]. Qed.

(** One send per matching line, until the channel can take no more. *)
Lemma test_loop_sends server lines :
  forall ch tr,
    let n := length (List.filter (is_identify server) lines) in
    ((n <= chan_capacity ch)%nat ->
     exists ch', test_loop server lines ch tr
                 = (Some ch', tr ++ replicate n (EvSendTestSucceeded true))
                 /\ chan_capacity ch' = (chan_capacity ch - n)%nat)
    /\ ((chan_capacity ch < n)%nat ->
        test_loop server lines ch tr
        = (None, tr ++ replicate (chan_capacity ch) (EvSendTestSucceeded true))).
Proof.
  induction lines as [|l lines IH]; intros ch tr; simpl.
  - split; [| lia]. intros _. exists ch. rewrite app_nil_r. split; [done | lia].
  - destruct (is_identify server l); simpl; [| apply IH].
    destruct (Nat.eq_dec (chan_capacity ch) 0%nat) as [H0 | H0].
    + split; [lia |]. intros _. rewrite chan_send_None, H0 by done. simpl.
      by rewrite app_nil_r.
    + destruct (chan_send_Some ch) as (ch1 & -> & Hcap); [lia |].
      destruct (IH ch1 (tr ++ [EvSendTestSucceeded true])) as [IH1 IH2].
      split.
      * intros Hn. destruct IH1 as (ch' & -> & Hc'); [lia |].
        exists ch'. rewrite <- app_assoc. simpl. split; [done | lia].
      * intros Hn. rewrite IH2 by lia. rewrite Hcap, <- app_assoc. simpl.
        destruct (chan_capacity ch); [lia | done].
Qed.

Lemma sends_of_app a b : sends_of (a ++ b) = sends_of a ++ sends_of b.
Proof. unfold sends_of. apply List.filter_app. Qed.

Lemma sends_of_replicate n :
  sends_of (replicate n (EvSendTestSucceeded true)) = replicate n (EvSendTestSucceeded true).
Proof. induction n as [|n IH]; simpl; [done | by rewrite IH]. Qed.

Lemma sends_of_package_loop write name idx todo st :
  sends_of (pk_trace (package_loop write name idx todo st)) = sends_of (pk_trace st).
Proof.
  revert idx st. induction todo as [|l todo IH]; intros idx st; simpl; [done |].
  destruct (write idx) as [|n err]; simpl.
  - by rewrite IH.
  - rewrite sends_of_app. simpl. by rewrite app_nil_r.
Qed.

(** The function in the test-run branch. *)
Lemma run_test_branch env server logLines opts w name :
  env_TempFile env = inl name ->
  ready_of (env_Now env) logLines <> [] ->
  TestRun opts = true ->
  DebugLogs opts = false ->
  let out := output_of env name (files w) (ready_of (env_Now env) logLines) in
  let pk := run_packager env name (files w) (ready_of (env_Now env) logLines) in
  out.1 <> [] ->
  AnalyzeInGroupsAndSend env server logLines opts w
  = match test_loop server out.1 (logTestSucceeded w) (pk_trace pk) with
    | (Some ch', tr') =>
        mkResult (Returned RetTestRun (tooFresh_of (env_Now env) logLines))
          (mkWorld (LogState_Cleanup env
                      (mkLogState (env_Now2 env)
                         [mkLogFile (env_NewV4 env) (Some name) out.1] out.2)
                      (pk_files pk)) ch') tr'
    | (None, tr') => mkResult Blocked (mkWorld (pk_files pk) (mkChan 0 0)) tr'
    end.
Proof.
  intros Hname Hready Htest Hdebug out pk. subst out pk.
  unfold AnalyzeInGroupsAndSend, output_of, run_packager, ready_of, tooFresh_of in *.
  destruct (window (env_Now env) (stitch logLines)) as [ready tooFresh]. simpl in *.
  destruct ready as [|r ready]; [done |]. simpl length. simpl Nat.eqb. cbv iota.
  rewrite Hname.
  destruct (analyze_groups env _ [] []) as [lines samples]. simpl.
  intros Hout. destruct lines as [|l lines]; [done |]. simpl.
  rewrite Hdebug, Htest. reflexivity.
Qed.

(** C9 (as amended).  Test-mode signal property: when test mode is
    enabled (and debug mode is not), a line is ready, the store is
    allocated and [n >= 1] output lines carry the identity-marker
    classification with a [config_section] detail equal to the locally
    configured section, the pipeline performs one blocking send of
    [true] on the test channel per matching line.  When the channel can
    complete [n] sends (through receives of the observer or free buffer
    slots), the pipeline signals [n] times and returns only the
    too-fresh lines; when it can complete fewer, the pipeline signals
    that many times and then stays blocked in the next send, without
    returning. *)
Theorem test_mode_signal env server logLines opts w name :
  env_TempFile env = inl name ->
  ready_of (env_Now env) logLines <> [] ->
  TestRun opts = true ->
  DebugLogs opts = false ->
  let out := (output_of env name (files w) (ready_of (env_Now env) logLines)).1 in
  let n := length (List.filter (is_identify server) out) in
  let cap := chan_capacity (logTestSucceeded w) in
  let R := AnalyzeInGroupsAndSend env server logLines opts w in
  (0 < n)%nat ->
  ((n <= cap)%nat ->
   outcome R = Returned RetTestRun (tooFresh_of (env_Now env) logLines)
   /\ sends_of (trace R) = replicate n (EvSendTestSucceeded true)
   /\ chan_capacity (logTestSucceeded (world R)) = (cap - n)%nat)
  /\ ((cap < n)%nat ->
      outcome R = Blocked
      /\ sends_of (trace R) = replicate cap (EvSendTestSucceeded true)).
Proof.
  intros Hname Hready Htest Hdebug out n cap R Hn.
  assert (Hout : out <> []).
  { intros Hnil. subst n. rewrite Hnil in Hn. simpl in Hn. lia. }
  subst R. rewrite (run_test_branch env server logLines opts w name) by assumption.
  fold out.
  destruct (test_loop_sends server out (logTestSucceeded w)
              (pk_trace (run_packager env name (files w)
                           (ready_of (env_Now env) logLines)))) as [Hle Hgt].
  fold n in Hle, Hgt. fold cap in Hle, Hgt.
  assert (Hpk : sends_of (pk_trace (run_packager env name (files w)
                                      (ready_of (env_Now env) logLines))) = []).
  { unfold run_packager. by rewrite sends_of_package_loop. }
  split.
  - intros Hcap. destruct (Hle Hcap) as (ch' & -> & Hch'). simpl.
    rewrite sends_of_app, Hpk, sends_of_replicate. by repeat split.
  - intros Hcap. rewrite (Hgt Hcap). simpl.
    rewrite sends_of_app, Hpk, sends_of_replicate. by split.
Qed.

Lemma test_mode_signal_witness :
  let R := AnalyzeInGroupsAndSend
             (sample_env identify_analyzer (inl (sample_grant true)) None)
             sample_server [readyLine; freshLine] (sample_opts true false)
             (sample_world 1 0) in
  outcome R = Returned RetTestRun (tooFresh_of (10 * sec) [readyLine; freshLine])
  /\ sends_of (trace R) = [EvSendTestSucceeded true]
  /\ chan_capacity (logTestSucceeded (world R)) = 0%nat.
Proof.
  apply (test_mode_signal
           (sample_env identify_analyzer (inl (sample_grant true)) None)
           sample_server [readyLine; freshLine] (sample_opts true false)
           (sample_world 1 0) "logs.tmp");
    first [ reflexivity | discriminate | vm_compute; lia ].
Defined.

(** C9 as it is worded fails twice.  With two matching output lines and
    an observer that receives twice the pipeline signals twice, not at
    most once; with one matching line and neither a receiver nor a free
    buffer slot the pipeline blocks in the send and never returns. *)
Lemma test_mode_signal_counterexample :
  let env := sample_env identify_analyzer (inl (sample_grant true)) None in
  let twice := AnalyzeInGroupsAndSend env sample_server
                 [readyLine; raw_line (5 * sec) ERROR 100 "relation does not exist"]
                 (sample_opts true false) (sample_world 2 0) in
  let stuck := AnalyzeInGroupsAndSend env sample_server [readyLine]
                 (sample_opts true false) (sample_world 0 0) in
  outcome twice = Returned RetTestRun []
  /\ sends_of (trace twice) = [EvSendTestSucceeded true; EvSendTestSucceeded true]
  /\ ~ (length (sends_of (trace twice)) <= 1)%nat
  /\ outcome stuck = Blocked
  /\ ~ (exists path backlog, outcome stuck = Returned path backlog).
Proof.
  intros env twice stuck.
  assert (H2 : sends_of (trace twice) = [EvSendTestSucceeded true; EvSendTestSucceeded true])
    by (vm_compute; reflexivity).
  assert (Hs : outcome stuck = Blocked) by (vm_compute; reflexivity).
  split; [vm_compute; reflexivity |]. split; [exact H2 |]. split.
  - rewrite H2. simpl. lia.
  - split; [exact Hs |]. intros (path & backlog & H). rewrite Hs in H. discriminate.
Qed.

(** ** What the packager leaves of a line, and what the upload receives *)

Lemma same_but_bytes_refl a : same_but_bytes a a.
Proof. by destruct a. Qed.

Lemma package_loop_same_but_bytes write name base todo :
  forall idx st,
    (forall k l, todo !! k = Some l -> base !! (idx + k)%nat = Some l) ->
    Forall2 same_but_bytes base (pk_readyLogLines st) ->
    Forall2 same_but_bytes base (pk_readyLogLines (package_loop write name idx todo st)).
Proof.
  induction todo as [|l todo IH]; intros idx st Hbase Hst; simpl; [done |].
  destruct (write idx) as [|n err]; simpl; [| done].
  apply IH.
  - intros k x Hk. replace (S idx + k)%nat with (idx + S k)%nat by lia. by apply Hbase.
  - simpl. pose proof (Hbase 0%nat l eq_refl) as Hl. rewrite Nat.add_0_r in Hl.
    rewrite <- (list_insert_id base idx l Hl).
    apply Forall2_insert; [exact Hst |]. by destruct l.
Qed.

Lemma run_packager_same_but_bytes env name fs ready :
  Forall2 same_but_bytes ready (pk_readyLogLines (run_packager env name fs ready)).
Proof.
  apply package_loop_same_but_bytes.
  - intros k l Hk. exact Hk.
  - simpl. apply Forall2_same_length_lookup. split; [done |].
    intros i x y Hx Hy. rewrite Hx in Hy. injection Hy as <-. apply same_but_bytes_refl.
Qed.

Lemma packaged_line_origin env name fs ready u :
  In u (pk_readyLogLines (run_packager env name fs ready)) ->
  exists a, In a ready /\ same_but_bytes a u.
Proof.
  intros Hu. apply list_elem_of_In, list_elem_of_lookup in Hu. destruct Hu as [i Hi].
  pose proof (run_packager_same_but_bytes env name fs ready) as HF.
  destruct (Forall2_lookup_r _ _ _ _ _ HF Hi) as (a & Ha & Hab).
  exists a. split; [| exact Hab].
  apply list_elem_of_In, list_elem_of_lookup. by exists i.
Qed.

Lemma upload_event_inv env server logLines opts w s g o ls st res :
  In (EvUploadAndSendLogs s g o ls st res)
     (trace (AnalyzeInGroupsAndSend env server logLines opts w)) ->
  exists name,
    env_TempFile env = inl name
    /\ st = pk_files (run_packager env name (files w) (ready_of (env_Now env) logLines))
    /\ ls = mkLogState (env_Now2 env)
              [mkLogFile (env_NewV4 env) (Some name)
                 (output_of env name (files w) (ready_of (env_Now env) logLines)).1]
              (output_of env name (files w) (ready_of (env_Now env) logLines)).2.
Proof.
  unfold AnalyzeInGroupsAndSend, output_of, run_packager, ready_of.
  destruct (window (env_Now env) (stitch logLines)) as [ready tooFresh]. simpl fst.
  repeat case_match; simpl; intros Hin; trace_cases Hin; simplify_eq;
    eexists; (split; [reflexivity |]); (split; [reflexivity |]);
    match goal with
    | Ha : analyze_groups _ _ [] [] = _ |- _ => rewrite Ha
    end; reflexivity.
Qed.

(** ** Unknown-level lines with nothing before them *)

(** C10 (as amended).  In the per-backend joiner, a ready line [u] of
    unknown level (so with a backend id, having survived stitching)
    that no classified line precedes in its backend group is dropped:
    the lines handed to the analyzer for the group are those of the
    rest of the group alone, the same as without [u], so [u] is no
    output line's head and its content is joined to none; and neither
    [u] nor the line it was before packaging is in the backlog returned
    on the success, denied, debug, test and nothing-to-send paths.  Its
    content is nevertheless in the packaged store that the upload call
    receives: the packager has written every ready line before the
    joiner runs, and when all writes succeed the store at
    [ByteStart u, ByteEnd u] is the content of [u]. *)
Theorem unanchored_line_discarded env server logLines opts w name p pre u rest :
  env_TempFile env = inl name ->
  let ready := ready_of (env_Now env) logLines in
  let pk := run_packager env name (files w) ready in
  let R := AnalyzeInGroupsAndSend env server logLines opts w in
  group_by_backend (pk_readyLogLines pk) !! p = Some (pre ++ u :: rest) ->
  Forall (fun c => is_classified c = false) pre ->
  is_classified u = false ->
  join (pre ++ u :: rest) = join (pre ++ rest)
  /\ join (pre ++ u :: rest) = join rest
  /\ (forall path backlog,
        outcome R = Returned path backlog -> is_retry path = false ->
        ~ In u backlog /\ forall a, same_but_bytes a u -> ~ In a backlog)
  /\ (forall s g o ls st res,
        In (EvUploadAndSendLogs s g o ls st res) (trace R) ->
        (forall i, (i < length ready)%nat -> env_WriteString env i = WriteOk) ->
        total_length ready <= Int64.max_signed ->
        st !! name = Some (concat_contents ready)
        /\ slice (concat_contents ready) (ByteStart u) (ByteEnd u) = Content u).
Proof.
  intros Hname ready pk R Hgroup Hpre Hu.
  assert (Hpu : Forall (fun c => is_classified c = false) (pre ++ [u])).
  { apply Forall_app. split; [exact Hpre | by constructor]. }
  assert (Hin : In u (pk_readyLogLines pk)).
  { apply group_by_backend_Some in Hgroup. destruct Hgroup as [Hg _].
    assert (Hug : In u (lines_of_backend p (pk_readyLogLines pk))).
    { rewrite <- Hg. apply in_app_iff. right. by left. }
    apply lines_of_backend_in in Hug. tauto. }
  split; [| split; [| split]].
  - rewrite (join_unanchored pre rest) by done.
    replace (pre ++ u :: rest) with ((pre ++ [u]) ++ rest) by (by rewrite <- app_assoc).
    by apply join_unanchored.
  - replace (pre ++ u :: rest) with ((pre ++ [u]) ++ rest) by (by rewrite <- app_assoc).
    by apply join_unanchored.
  - intros path backlog Hout Hpath. apply backlog_by_path in Hout.
    rewrite Hpath in Hout. subst backlog.
    destruct (packaged_line_origin _ _ _ _ _ Hin) as (a0 & Ha0 & Hsame).
    apply in_ready_of in Ha0. destruct Ha0 as [_ Hage].
    assert (Hageu : 3 * Time.Second < age (env_Now env) u).
    { unfold same_but_bytes in Hsame. rewrite Hsame. exact Hage. }
    split.
    + rewrite in_tooFresh_of. intros [_ H]. lia.
    + intros a Ha. rewrite in_tooFresh_of. intros [_ H].
      unfold same_but_bytes in Ha. rewrite Ha in Hageu. unfold age in *. simpl in *. lia.
  - intros s g o ls st res Hev Hw Hfit.
    destruct (upload_event_inv _ _ _ _ _ _ _ _ _ _ _ Hev) as (name' & Hname' & -> & _).
    rewrite Hname in Hname'. injection Hname' as <-.
    fold ready. subst pk.
    rewrite run_packager_all_ok in * by assumption. simpl in *.
    split; [by rewrite lookup_insert_eq |].
    apply list_elem_of_In, list_elem_of_lookup in Hin. destruct Hin as [i Hi].
    assert (is_Some (ready !! i)) as [x Hx].
    { apply lookup_lt_is_Some. rewrite <- (packaged_from_length 0).
      by eapply lookup_lt_Some. }
    rewrite (packaged_from_lookup _ _ _ _ Hx) in Hi. injection Hi as <-. simpl.
    rewrite <- (take_drop_middle ready i x Hx) at 1.
    apply slice_middle.
Qed.

Lemma unanchored_line_discarded_witness :
  let env := sample_env stub_analyzer (inl (sample_grant true)) None in
  let input := [orphanLine; raw_line (4 * sec) ERROR 5 "deadlock"] in
  let u := mkLogLine (4 * sec) LogLevel_UNKNOWN 5 "orphan" 0 0 5 Classification_UNKNOWN ∅ in
  let e := mkLogLine (4 * sec) ERROR 5 "deadlock" 6 6 13 Classification_UNKNOWN ∅ in
  join [u; e] = join [e].
Proof.
  intros env input u e.
  destruct (unanchored_line_discarded env sample_server input (sample_opts false false)
              (sample_world 0 0) "logs.tmp" 5 [] u [e]
              eq_refl eq_refl (List.Forall_nil _) eq_refl) as (H & _).
  exact H.
Defined.

(** C10 as it is worded fails for the upload: the dropped line is not
    among the line records of the upload, but the store the upload
    receives begins with its content. *)
Lemma unanchored_line_uploaded_counterexample :
  let env := sample_env stub_analyzer (inl (sample_grant true)) None in
  let input := [orphanLine; raw_line (4 * sec) ERROR 5 "deadlock"] in
  let R := AnalyzeInGroupsAndSend env sample_server input (sample_opts false false)
             (sample_world 0 0) in
  is_classified orphanLine = false
  /\ BackendPid orphanLine <> 0
  /\ outcome R = Returned RetUploaded []
  /\ upload_lines (trace R)
     = [mkLogLine (4 * sec) ERROR 5 "deadlock" 6 6 13 Classification_UNKNOWN ∅]
  /\ map (fun st => st !! "logs.tmp"%string) (upload_stores (trace R))
     = [Some "orphandeadlock"%string]
  /\ slice "orphandeadlock" 0 5 = Content orphanLine.
Proof.
  intros env input R. split; [reflexivity |]. split; [discriminate |].
  vm_compute. repeat split; reflexivity.
Qed.

(** ** The scenarios of the specification, run on the model *)

Example scenario_stitch_and_upload :
  let R := AnalyzeInGroupsAndSend
             (sample_env stub_analyzer (inl (sample_grant true)) None) sample_server
             [raw_line (6 * sec) ERROR 100 "syntax error";
              raw_line (6 * sec) LogLevel_UNKNOWN 0 "at character 5"]
             (sample_opts false false) (sample_world 0 0) in
  outcome R = Returned RetUploaded []
  /\ upload_lines (trace R)
     = [mkLogLine (6 * sec) ERROR 100 "syntax error at character 5" 0 0 26
          Classification_UNKNOWN ∅]
  /\ files (world R) = ∅.
Proof. vm_compute. repeat split; reflexivity. Qed.

Example scenario_fresh_line_only :
  AnalyzeInGroupsAndSend
    (sample_env stub_analyzer (inl (sample_grant true)) None) sample_server
    [freshLine] (sample_opts false false) (sample_world 0 0)
  = mkResult (Returned RetNothingReady [freshLine]) (sample_world 0 0) [].
Proof. vm_compute. reflexivity. Qed.

Example scenario_grant_error :
  outcome (AnalyzeInGroupsAndSend
             (sample_env stub_analyzer (inr "connection refused"%string) None) sample_server
             [readyLine; freshLine] (sample_opts false false) (sample_world 0 0))
  = Returned RetGrantError [readyLine; freshLine].
Proof. vm_compute. reflexivity. Qed.

(** The stitcher is one more loop of the shape of [merge_loop]. *)
Lemma stitch_loop_merge_loop acc ls :
  stitch_loop acc ls
  = merge_loop (fun l => negb (is_fragment l))
      (fun l p => set_Content (Content p +:+ " " +:+ Content l) p) acc ls.
Proof.
  revert acc. induction ls as [|l ls IH]; intros acc; simpl; [reflexivity |].
  rewrite stitch_test_fragment. by rewrite !IH.
Qed.

(** ** The end offset of a joined line *)

Lemma joined_ByteEnd_small cs :
  forall e,
    -1 <= e ->
    e + total_length cs <= Int64.max_signed - 1 ->
    joined_ByteEnd e cs = e + total_length cs.
Proof.
  unfold joined_ByteEnd.
  induction cs as [|c cs IH]; intros e He Hfit; simpl in *; [lia |].
  pose proof (total_length_nonneg cs) as Hnn.
  pose proof (Nat2Z.is_nonneg (String.length (Content c))) as Hc.
  rewrite len64_small by (unfold Int64.max_signed in *; lia).
  rewrite Int64_add_small
    by (unfold Int64.in_range, Int64.min_signed, Int64.max_signed in *; lia).
  rewrite IH by lia. lia.
Qed.

(** Joining keeps [end = start + len(content) - 1]: the line grows by
    the lengths of its continuations at both sides of the equation. *)
Lemma joined_byte_range h cs :
  0 <= ByteStart h ->
  ByteEnd h = ByteStart h + Z.of_nat (String.length (Content h)) - 1 ->
  ByteStart h + Z.of_nat (String.length (Content h)) + total_length cs
    <= Int64.max_signed ->
  ByteEnd (joined h cs)
  = ByteStart (joined h cs) + Z.of_nat (String.length (Content (joined h cs))) - 1.
Proof.
  intros Hs He Hfit. rewrite joined_fields. simpl.
  pose proof (Nat2Z.is_nonneg (String.length (Content h))) as Hh.
  rewrite joined_ByteEnd_small by lia.
  rewrite string_length_app, Nat2Z.inj_add, concat_contents_length. lia.
Qed.

(** * Further properties of the pipeline *)

(** ** More on loops that merge into the last kept line *)

Section MergeLoopMore.
Context {A : Type} (keep : A -> bool) (merge : A -> A -> A).

Lemma segments_fst ls : map fst (segments keep ls) = List.filter keep ls.
Proof.
  induction ls as [|l ls IH]; simpl; [reflexivity |].
  destruct (keep l); simpl; by rewrite IH.
Qed.

Lemma merge_all_invariant {B} (g : A -> B) h cs :
  (forall c p, g (merge c p) = g p) -> g (merge_all merge h cs) = g h.
Proof.
  intros Hg. revert h. unfold merge_all.
  induction cs as [|c cs IH]; intros h; simpl; [reflexivity |].
  by rewrite IH, Hg.
Qed.

Lemma segments_all_kept ls :
  Forall (fun l => keep l = true) ls -> segments keep ls = map (fun l => (l, [])) ls.
Proof.
  induction 1 as [|l ls Hl Hls IH]; simpl; [reflexivity |].
  rewrite Hl, IH. f_equal. f_equal.
  destruct Hls as [|x xs Hx _]; simpl; [reflexivity | by rewrite Hx].
Qed.

Lemma leading_dropped_split ls :
  ls = leading_dropped keep ls ++ drop (length (leading_dropped keep ls)) ls.
Proof.
  induction ls as [|l ls IH]; simpl; [reflexivity |].
  destruct (keep l); simpl; [reflexivity | by rewrite <- IH].
Qed.
End MergeLoopMore.

(** ** More on the stitcher *)

Lemma stitch_merge_all h cs : merge_all stitch_merge h cs = absorb h cs.
Proof.
  revert h. unfold merge_all.
  induction cs as [|c cs IH]; intros h; simpl.
  - unfold absorb. simpl. rewrite string_app_nil_r. by destruct h.
  - rewrite IH. apply absorb_step.
Qed.

Lemma stitch_segments ls :
  stitch ls = map (fun hc => absorb hc.1 hc.2) (segments has_origin ls).
Proof.
  unfold stitch. rewrite stitch_loop_merge_loop.
  change (fun l => negb (is_fragment l)) with has_origin.
  change (fun l p => set_Content (Content p +:+ " " +:+ Content l) p) with stitch_merge.
  rewrite merge_loop_segments. apply map_ext. intros [h cs]. apply stitch_merge_all.
Qed.

Lemma stitch_no_fragment ls : Forall (fun l => is_fragment l = false) (stitch ls).
Proof.
  rewrite stitch_segments. apply Forall_forall. intros l Hl.
  apply list_elem_of_In, in_map_iff in Hl. destruct Hl as ([h cs] & <- & Hin).
  apply segments_in in Hin. destruct Hin as (_ & Hh & _). simpl.
  unfold has_origin in Hh. apply negb_true_iff in Hh.
  unfold absorb, is_fragment in *. by destruct h.
Qed.

(** X1.  Stitching is incremental: stitching an already stitched batch
    followed by further lines gives the same as stitching the original
    batch followed by those lines.  In particular stitching twice is
    stitching once, and fragments at the head of the further lines are
    attached to the last line of the earlier batch. *)
Theorem stitch_incremental (a b : list LogLine) :
  stitch (stitch a ++ b) = stitch (a ++ b)
  /\ stitch (stitch a) = stitch a.
Proof.
  assert (H : forall c, stitch (stitch a ++ c) = stitch (a ++ c)).
  { intros c. unfold stitch at 1 3. rewrite !stitch_loop_app.
    rewrite (stitch_loop_fragment_free (stitch a) []) by apply stitch_no_fragment.
    reflexivity. }
  split; [apply H |].
  specialize (H []). by rewrite !app_nil_r in H.
Qed.

(** X2.  The stitcher keeps exactly the lines that have a level or a
    backend id, in their order, and changes nothing of them but the
    content; its output holds no fragment. *)
Theorem stitch_keeps_origin_lines (ls : list LogLine) :
  map without_content (stitch ls) = map without_content (List.filter has_origin ls)
  /\ length (stitch ls) = length (List.filter has_origin ls)
  /\ Forall (fun l => is_fragment l = false) (stitch ls).
Proof.
  assert (H : map without_content (stitch ls)
              = map without_content (List.filter has_origin ls)).
  { rewrite stitch_segments, <- segments_fst, !map_map. apply map_ext.
    intros [h cs]. simpl. unfold absorb. by destruct h. }
  split; [exact H |]. split; [| apply stitch_no_fragment].
  rewrite <- (length_map without_content (stitch ls)), H. apply length_map.
Qed.

(** X3.  A batch without fragments passes the stitcher unchanged. *)
Theorem stitch_fragment_free (ls : list LogLine) :
  Forall (fun l => is_fragment l = false) ls -> stitch ls = ls.
Proof. intros H. unfold stitch. by rewrite stitch_loop_fragment_free. Qed.

Lemma stitch_fragment_free_witness :
  stitch [readyLine; orphanLine; freshLine] = [readyLine; orphanLine; freshLine].
Proof.
  apply (stitch_fragment_free [readyLine; orphanLine; freshLine]).
  repeat constructor.
Defined.

(** ** More on the readiness windower *)

Lemma filter_partition_perm {A} (f : A -> bool) (l : list A) :
  List.filter f l ++ List.filter (fun x => negb (f x)) l ≡ₚ l.
Proof.
  induction l as [|x l IH]; simpl; [reflexivity |].
  destruct (f x); simpl.
  - by rewrite IH.
  - rewrite <- Permutation_middle. by rewrite IH.
Qed.

Lemma filter_sublist {A} (f : A -> bool) (l : list A) : sublist (List.filter f l) l.
Proof.
  induction l as [|x l IH]; simpl; [constructor |].
  destruct (f x); by constructor.
Qed.

Lemma filter_all_true {A} (f : A -> bool) (l : list A) :
  (forall x, In x l -> f x = true) -> List.filter f l = l.
Proof.
  induction l as [|x l IH]; simpl; intros H; [reflexivity |].
  rewrite (H x) by (by left). f_equal. apply IH. intros y Hy. apply H. by right.
Qed.

Lemma filter_all_false {A} (f : A -> bool) (l : list A) :
  (forall x, In x l -> f x = false) -> List.filter f l = [].
Proof.
  induction l as [|x l IH]; simpl; intros H; [reflexivity |].
  rewrite (H x) by (by left). apply IH. intros y Hy. apply H. by right.
Qed.

(** X4.  The windower partitions the stitched lines: the ready lines and
    the too-fresh lines together are the stitched lines, each exactly
    once, and each of the two lists keeps the order of the stitched
    lines. *)
Theorem window_partition (now : Z) (logLines : list LogLine) :
  ready_of now logLines ++ tooFresh_of now logLines ≡ₚ stitch logLines
  /\ sublist (ready_of now logLines) (stitch logLines)
  /\ sublist (tooFresh_of now logLines) (stitch logLines)
  /\ (length (ready_of now logLines) + length (tooFresh_of now logLines))%nat
     = length (stitch logLines).
Proof.
  rewrite ready_of_filter, tooFresh_of_filter.
  pose proof (filter_partition_perm (is_ready now) (stitch logLines)) as Hp.
  split; [exact Hp |]. split; [apply filter_sublist |]. split; [apply filter_sublist |].
  rewrite <- length_app. by rewrite Hp.
Qed.

(** X5.  Readiness only grows with the clock: a line that is ready at
    one tick is ready at every later tick (so a ready line that comes
    back after a retry is dispatched again, not held back), and a line
    that is too fresh at a tick was too fresh at every earlier one. *)
Theorem readiness_monotone (now now' : Z) (logLines : list LogLine) (l : LogLine) :
  now <= now' ->
  (In l (ready_of now logLines) -> In l (ready_of now' logLines))
  /\ (In l (tooFresh_of now' logLines) -> In l (tooFresh_of now logLines)).
Proof.
  intros Hle. rewrite !in_ready_of, !in_tooFresh_of. unfold age.
  split; intros [Hin H]; (split; [exact Hin | lia]).
Qed.

Lemma readiness_monotone_witness :
  In readyLine (ready_of (11 * sec) [readyLine; freshLine])
  /\ In freshLine (tooFresh_of (10 * sec) [readyLine; freshLine]).
Proof.
  destruct (readiness_monotone (10 * sec) (11 * sec) [readyLine; freshLine] readyLine
              ltac:(vm_compute; discriminate)) as [Hr _].
  destruct (readiness_monotone (10 * sec) (11 * sec) [readyLine; freshLine] freshLine
              ltac:(vm_compute; discriminate)) as [_ Hf].
  split; [apply Hr | apply Hf]; vm_compute; tauto.
Defined.

(** ** The early returns *)

(** X6.  When no stitched line is older than 3 seconds the function
    returns the stitched input at once: no temporary file is created,
    nothing is logged, no grant is requested, nothing is uploaded and the
    test channel is not touched. *)
Theorem nothing_ready_returns env server logLines opts w :
  (forall l, In l (stitch logLines) -> age (env_Now env) l <= 3 * Time.Second) ->
  AnalyzeInGroupsAndSend env server logLines opts w
  = mkResult (Returned RetNothingReady (stitch logLines)) w [].
Proof.
  intros Hfresh. unfold AnalyzeInGroupsAndSend. rewrite window_filter.
  rewrite filter_all_false by (intros l Hl; by apply is_ready_false_age, Hfresh).
  rewrite filter_all_true
    by (intros l Hl; apply negb_true_iff; by apply is_ready_false_age, Hfresh).
  reflexivity.
Qed.

Lemma nothing_ready_returns_witness :
  AnalyzeInGroupsAndSend
    (sample_env stub_analyzer (inr "unreachable"%string) (Some "unreachable"%string))
    sample_server [freshLine; freshFragment] (sample_opts false false) (sample_world 0 0)
  = mkResult (Returned RetNothingReady
                [raw_line (9 * sec) ERROR 7 "deadlock detected at character 5"])
      (sample_world 0 0) [].
Proof.
  apply (nothing_ready_returns
           (sample_env stub_analyzer (inr "unreachable"%string) (Some "unreachable"%string))
           sample_server [freshLine; freshFragment] (sample_opts false false)
           (sample_world 0 0)).
  intros l Hl. vm_compute in Hl. destruct Hl as [<- | []]. vm_compute. discriminate.
Defined.

(** X7.  When a line is ready and the temporary file cannot be
    allocated, the function logs the error and returns its whole
    original input; it leaves the files and the test channel as they
    were and makes no other call. *)
Theorem tempfile_failure_returns_input env server logLines opts w err :
  ready_of (env_Now env) logLines <> [] ->
  env_TempFile env = inr err ->
  AnalyzeInGroupsAndSend env server logLines opts w
  = mkResult (Returned RetTempFileError logLines) w
      [EvPrintError "Could not allocate tempfile for logs: %s" err].
Proof.
  unfold AnalyzeInGroupsAndSend, ready_of.
  destruct (window (env_Now env) (stitch logLines)) as [ready tooFresh]. simpl.
  intros Hready Htmp. destruct ready as [|r ready]; [done |]. simpl.
  by rewrite Htmp.
Qed.

Lemma tempfile_failure_returns_input_witness :
  AnalyzeInGroupsAndSend
    (mkEnv (10 * sec) (10 * sec) 1 (inr "no space left on device"%string)
       (fun _ => WriteOk) (fun groups => groups) stub_analyzer
       (fun _ _ => inl (sample_grant true)) (fun _ _ _ _ => None) LogState_Cleanup_stores)
    sample_server [readyLine; freshLine; freshFragment] (sample_opts false false)
    (sample_world 0 0)
  = mkResult (Returned RetTempFileError [readyLine; freshLine; freshFragment])
      (sample_world 0 0)
      [EvPrintError "Could not allocate tempfile for logs: %s" "no space left on device"].
Proof.
  apply (tempfile_failure_returns_input
           (mkEnv (10 * sec) (10 * sec) 1 (inr "no space left on device"%string)
              (fun _ => WriteOk) (fun groups => groups) stub_analyzer
              (fun _ _ => inl (sample_grant true)) (fun _ _ _ _ => None)
              LogState_Cleanup_stores)).
  - vm_compute. discriminate.
  - reflexivity.
Defined.

(** ** The calls an invocation makes *)

Lemma network_calls_app a b : network_calls (a ++ b) = network_calls a ++ network_calls b.
Proof. unfold network_calls. apply List.filter_app. Qed.

Lemma network_calls_package_loop write name idx todo st :
  network_calls (pk_trace (package_loop write name idx todo st))
  = network_calls (pk_trace st).
Proof.
  revert idx st. induction todo as [|l todo IH]; intros idx st; simpl; [done |].
  destruct (write idx) as [|n err]; simpl.
  - by rewrite IH.
  - rewrite network_calls_app. simpl. by rewrite app_nil_r.
Qed.

Lemma network_calls_test_loop server lines :
  forall ch tr o tr',
    test_loop server lines ch tr = (o, tr') -> network_calls tr' = network_calls tr.
Proof.
  induction lines as [|l lines IH]; intros ch tr o tr'; simpl.
  - by intros [= <- <-].
  - destruct (is_identify server l); [| apply IH].
    destruct (chan_send ch) as [ch' |].
    + intros H. apply IH in H. rewrite H, network_calls_app. simpl. by rewrite app_nil_r.
    + by intros [= <- <-].
Qed.

Lemma test_loop_no_match server lines :
  forall ch tr,
    Forall (fun l => is_identify server l = false) lines ->
    test_loop server lines ch tr = (Some ch, tr).
Proof.
  induction lines as [|l lines IH]; intros ch tr H; simpl; [reflexivity |].
  inversion H as [|? ? Hl Hls]; subst. rewrite Hl. by apply IH.
Qed.

Ltac fold_test_calls :=
  repeat match goal with
         | Ht : test_loop _ _ _ _ = (_, ?tr') |- context [network_calls ?tr'] =>
             rewrite (network_calls_test_loop _ _ _ _ _ _ Ht)
         end.

(** X8.  In test mode, and in debug mode, the function makes no network
    call: it requests no grant and uploads nothing, whatever the input. *)
Theorem offline_modes_make_no_network_call env server logLines opts w :
  DebugLogs opts = true \/ TestRun opts = true ->
  network_calls (trace (AnalyzeInGroupsAndSend env server logLines opts w)) = [].
Proof.
  unfold AnalyzeInGroupsAndSend.
  destruct (window (env_Now env) (stitch logLines)) as [ready tooFresh].
  intros Hmode. repeat case_match; simpl;
    try (destruct Hmode; congruence);
    fold_test_calls;
    rewrite ?network_calls_app, ?network_calls_package_loop; reflexivity.
Qed.

Lemma offline_modes_make_no_network_call_witness :
  network_calls
    (trace (AnalyzeInGroupsAndSend
              (sample_env identify_analyzer (inl (sample_grant true)) None)
              sample_server [readyLine; freshLine] (sample_opts true false)
              (sample_world 1 0)))
  = [].
Proof.
  apply (offline_modes_make_no_network_call
           (sample_env identify_analyzer (inl (sample_grant true)) None)
           sample_server [readyLine; freshLine] (sample_opts true false)
           (sample_world 1 0)).
  right. reflexivity.
Defined.

(** X9.  Debug mode has priority over test mode and never blocks: with
    debug mode enabled the function always returns, through one of the
    first four return statements, sends nothing on the test channel and
    leaves the channel as it was, also when test mode is enabled too. *)
Theorem debug_mode_never_signals env server logLines opts w :
  DebugLogs opts = true ->
  let R := AnalyzeInGroupsAndSend env server logLines opts w in
  sends_of (trace R) = []
  /\ logTestSucceeded (world R) = logTestSucceeded w
  /\ exists path backlog,
       outcome R = Returned path backlog
       /\ (path = RetNothingReady \/ path = RetTempFileError
           \/ path = RetNothingToSend \/ path = RetDebug).
Proof.
  unfold AnalyzeInGroupsAndSend.
  destruct (window (env_Now env) (stitch logLines)) as [ready tooFresh].
  intros Hdebug. repeat case_match; simpl; try congruence;
    (split; [rewrite ?sends_of_app, ?sends_of_package_loop; reflexivity |]);
    (split; [reflexivity |]); eexists _, _; (split; [reflexivity |]); tauto.
Qed.

Lemma debug_mode_never_signals_witness :
  let R := AnalyzeInGroupsAndSend
             (sample_env identify_analyzer (inl (sample_grant true)) None)
             sample_server [readyLine; freshLine] (sample_opts true true)
             (sample_world 0 0) in
  sends_of (trace R) = []
  /\ logTestSucceeded (world R) = logTestSucceeded (sample_world 0 0)
  /\ exists path backlog,
       outcome R = Returned path backlog
       /\ (path = RetNothingReady \/ path = RetTempFileError
           \/ path = RetNothingToSend \/ path = RetDebug).
Proof.
  apply (debug_mode_never_signals
           (sample_env identify_analyzer (inl (sample_grant true)) None)
           sample_server [readyLine; freshLine] (sample_opts true true)
           (sample_world 0 0)).
  reflexivity.
Defined.

(** X10.  The network protocol of one invocation: either no network
    call at all; or a single grant request that failed or was answered
    with a denying grant, and nothing after it; or a single grant
    request answered with a valid grant, followed by a single upload
    made with exactly that grant.  The function never uploads without a
    valid grant obtained in the same invocation, and never retries a
    call itself. *)
Theorem network_call_protocol env server logLines opts w :
  let calls := network_calls (trace (AnalyzeInGroupsAndSend env server logLines opts w)) in
  let res := GetLogsGrant env server opts in
  calls = []
  \/ (calls = [EvGetLogsGrant server opts res]
      /\ match res with
         | inr _ => True
         | inl grant => Valid grant = false
         end)
  \/ (exists grant logState store,
        res = inl grant /\ Valid grant = true
        /\ calls = [EvGetLogsGrant server opts res;
                    EvUploadAndSendLogs server grant opts logState store
                      (UploadAndSendLogs env server grant opts logState)]).
Proof.
  unfold AnalyzeInGroupsAndSend.
  destruct (window (env_Now env) (stitch logLines)) as [ready tooFresh].
  repeat case_match; simpl;
    fold_test_calls;
    rewrite ?network_calls_app, ?network_calls_package_loop; simpl;
    try (left; reflexivity).
  all: repeat match goal with
              | Hv : negb (Valid _) = true |- _ => apply negb_true_iff in Hv
              | Hv : negb (Valid _) = false |- _ => apply negb_false_iff in Hv
              end.
  all: first
         [ right; left; split; [reflexivity | done]
         | right; right; eexists _, _, _;
           split; [reflexivity |]; split; [done |];
           match goal with
           | Hu : UploadAndSendLogs _ _ _ _ _ = _ |- _ => rewrite Hu
           end; reflexivity ].
Qed.

(** X11.  What an upload receives: the function uploads only outside
    debug and test mode, only a batch with at least one output line or
    one sample, and the envelope it hands over holds exactly one
    artifact, whose handle is the temporary file of this invocation and
    whose lines are the analyzer's output; the temporary file still
    exists when the upload is called (it is released only afterwards). *)
Theorem upload_payload env server logLines opts w s g o ls st res :
  In (EvUploadAndSendLogs s g o ls st res)
     (trace (AnalyzeInGroupsAndSend env server logLines opts w)) ->
  exists name lines samples,
    env_TempFile env = inl name
    /\ (lines, samples) = output_of env name (files w) (ready_of (env_Now env) logLines)
    /\ ls = mkLogState (env_Now2 env) [mkLogFile (env_NewV4 env) (Some name) lines] samples
    /\ (lines <> [] \/ samples <> [])
    /\ is_Some (st !! name)
    /\ DebugLogs opts = false /\ TestRun opts = false
    /\ s = server /\ o = opts /\ Valid g = true
    /\ res = UploadAndSendLogs env server g opts ls.
Proof.
  intros Hin.
  destruct (upload_event_inv _ _ _ _ _ _ _ _ _ _ _ Hin) as (name & Hname & Hst & Hls).
  exists name, (output_of env name (files w) (ready_of (env_Now env) logLines)).1,
    (output_of env name (files w) (ready_of (env_Now env) logLines)).2.
  split; [exact Hname |]. split; [by destruct (output_of _ _ _ _) |].
  split; [exact Hls |].
  assert (Hex : is_Some (st !! name)) by (rewrite Hst; apply run_packager_store_exists).
  revert Hin. clear Hst Hls.
  unfold AnalyzeInGroupsAndSend, output_of, run_packager, ready_of.
  destruct (window (env_Now env) (stitch logLines)) as [ready tooFresh]. simpl fst.
  rewrite Hname.
  repeat case_match; simpl; intros Hin; trace_cases Hin; simplify_eq; simpl.
  all: repeat match goal with
              | Hv : negb (Valid _) = false |- _ => apply negb_false_iff in Hv
              | Hn : (length ?l =? 0)%nat && (length ?l0 =? 0)%nat = false |- _ =>
                  apply andb_false_iff in Hn; rewrite !Nat.eqb_neq in Hn
              end.
  all: repeat split; try done.
  all: match goal with
       | Hn : length ?l <> 0%nat \/ length ?l0 <> 0%nat |- _ =>
           destruct Hn as [Hn | Hn]; [left | right]; intros ->; by apply Hn
       end.
Qed.

Lemma upload_payload_witness :
  exists name lines samples,
    name = "logs.tmp"%string
    /\ (lines, samples)
       = output_of (sample_env stub_analyzer (inl (sample_grant true)) None) name ∅
           (ready_of (10 * sec) [readyLine; freshLine])
    /\ lines = [mkLogLine (4 * sec) ERROR 100 "syntax error" 0 0 11 Classification_UNKNOWN ∅].
Proof.
  destruct (upload_payload
              (sample_env stub_analyzer (inl (sample_grant true)) None)
              sample_server [readyLine; freshLine] (sample_opts false false)
              (sample_world 0 0)
              sample_server (sample_grant true) (sample_opts false false)
              (mkLogState (10 * sec)
                 [mkLogFile 1 (Some "logs.tmp"%string)
                    [mkLogLine (4 * sec) ERROR 100 "syntax error" 0 0 11
                       Classification_UNKNOWN ∅]] [])
              {[ "logs.tmp"%string := "syntax error"%string ]} None)
    as (name & lines & samples & Hname & Hout & Hls & _).
  - vm_compute. tauto.
  - exists name, lines, samples. split; [simpl in Hname; congruence |].
    split; [exact Hout |]. simpl in Hls. congruence.
Defined.

(** X12.  In test mode (without debug mode) an invocation in which no
    output line is the identity marker of the configured section sends
    nothing on the test channel and never blocks, also when nobody
    listens on the channel. *)
Theorem test_mode_without_marker env server logLines opts w :
  TestRun opts = true ->
  DebugLogs opts = false ->
  (forall name,
     env_TempFile env = inl name ->
     Forall (fun l => is_identify server l = false)
            (output_of env name (files w) (ready_of (env_Now env) logLines)).1) ->
  let R := AnalyzeInGroupsAndSend env server logLines opts w in
  sends_of (trace R) = []
  /\ logTestSucceeded (world R) = logTestSucceeded w
  /\ exists path, outcome R = Returned path
                    (if is_retry path then logLines
                     else tooFresh_of (env_Now env) logLines).
Proof.
  unfold AnalyzeInGroupsAndSend, output_of, run_packager, ready_of, tooFresh_of.
  destruct (window (env_Now env) (stitch logLines)) as [ready tooFresh]. simpl fst.
  simpl snd. intros Htest Hdebug Hno.
  destruct (length ready =? 0)%nat; [by repeat split; eexists RetNothingReady |].
  destruct (env_TempFile env) as [name | err];
    [| by repeat split; eexists RetTempFileError].
  specialize (Hno name eq_refl).
  destruct (analyze_groups env _ [] []) as [lines samples]. simpl in Hno.
  rewrite Hdebug, Htest, (test_loop_no_match _ _ _ _ Hno).
  destruct ((length lines =? 0)%nat && (length samples =? 0)%nat); simpl.
  - rewrite sends_of_package_loop. repeat split. by eexists RetNothingToSend.
  - rewrite sends_of_package_loop. repeat split. by eexists RetTestRun.
Qed.

Lemma test_mode_without_marker_witness :
  let R := AnalyzeInGroupsAndSend
             (sample_env stub_analyzer (inl (sample_grant true)) None)
             sample_server [readyLine; freshLine] (sample_opts true false)
             (sample_world 0 0) in
  sends_of (trace R) = [] /\ outcome R = Returned RetTestRun [freshLine].
Proof.
  intros R.
  destruct (test_mode_without_marker
              (sample_env stub_analyzer (inl (sample_grant true)) None)
              sample_server [readyLine; freshLine] (sample_opts true false)
              (sample_world 0 0) eq_refl eq_refl) as (Hs & _ & _).
  - intros name [= <-]. vm_compute. repeat constructor.
  - split; [exact Hs |]. vm_compute. reflexivity.
Defined.

(** ** The files an invocation touches *)

Lemma package_loop_frame write name name' idx todo st :
  name <> name' ->
  pk_files (package_loop write name idx todo st) !! name' = pk_files st !! name'.
Proof.
  intros Hne. revert idx st. induction todo as [|l todo IH]; intros idx st; simpl; [done |].
  destruct (write idx) as [|n err]; simpl.
  - rewrite IH. simpl. unfold file_append. by rewrite lookup_alter_ne.
  - unfold file_append. by rewrite lookup_alter_ne.
Qed.

(** X13.  An invocation touches no file but its own temporary file:
    provided the release of the envelope only reaches the stores of the
    artifacts the envelope holds, every other file is after the
    invocation (returned or blocked) what it was before. *)
Theorem other_files_untouched env server logLines opts w name' :
  cleanup_frame env ->
  env_TempFile env <> inl name' ->
  files (world (AnalyzeInGroupsAndSend env server logLines opts w)) !! name'
  = files w !! name'.
Proof.
  intros Hframe Hother. unfold AnalyzeInGroupsAndSend.
  destruct (window (env_Now env) (stitch logLines)) as [ready tooFresh].
  repeat case_match; simpl; try reflexivity.
  all: try (rewrite Hframe;
            [| simpl; intros logFile Hlf;
               repeat (destruct Hlf as [<- | Hlf]; [simpl; congruence |]);
               destruct Hlf]).
  all: rewrite package_loop_frame by congruence; simpl.
  all: apply lookup_insert_ne; congruence.
Qed.

Lemma other_files_untouched_witness :
  files (world (AnalyzeInGroupsAndSend
                  (sample_env stub_analyzer (inl (sample_grant true)) None)
                  sample_server [readyLine; freshLine] (sample_opts false false)
                  (mkWorld {[ "postgresql.log"%string := "kept"%string ]} (mkChan 0 0))))
    !! "postgresql.log"%string
  = Some "kept"%string.
Proof.
  rewrite (other_files_untouched
             (sample_env stub_analyzer (inl (sample_grant true)) None)
             sample_server [readyLine; freshLine] (sample_opts false false)
             (mkWorld {[ "postgresql.log"%string := "kept"%string ]} (mkChan 0 0))
             "postgresql.log").
  - reflexivity.
  - apply sample_env_cleanup_frame.
  - discriminate.
Defined.

(** ** More on the packager *)

Lemma package_loop_prefix_ok write name a :
  forall rest idx done cur fs tr,
    (forall k, (k < length a)%nat -> write (idx + k)%nat = WriteOk) ->
    length done = idx ->
    0 <= cur ->
    cur + total_length a <= Int64.max_signed ->
    package_loop write name idx (a ++ rest) (mkPackState fs cur (done ++ a ++ rest) tr)
    = package_loop write name (idx + length a) rest
        (mkPackState (file_append name (concat_contents a) fs)
                     (cur + total_length a)
                     ((done ++ packaged_from cur a) ++ rest) tr).
Proof.
  induction a as [|l a IH]; intros rest idx done cur fs tr Hw Hlen Hcur Hfit.
  - simpl. rewrite file_append_nil, Nat.add_0_r, Z.add_0_r, app_nil_r. reflexivity.
  - simpl in Hfit. pose proof (total_length_nonneg a) as Hnn.
    pose proof (Nat2Z.is_nonneg (String.length (Content l))) as Hn.
    simpl app. simpl package_loop.
    rewrite <- (Nat.add_0_r idx) at 1. rewrite (Hw 0%nat) by (simpl; lia).
    cbn [pk_currentByteStart pk_files pk_readyLogLines pk_trace].
    rewrite len64_small by lia.
    rewrite Int64_add_small
      by (unfold Int64.in_range, Int64.min_signed, Int64.max_signed in *; lia).
    rewrite Int64_sub_small
      by (unfold Int64.in_range, Int64.min_signed, Int64.max_signed in *; lia).
    replace (<[idx:=_]> (done ++ l :: a ++ rest))
      with ((done ++ [set_Bytes cur cur
                        (cur + Z.of_nat (String.length (Content l)) - 1) l])
              ++ a ++ rest).
    2:{ rewrite <- Hlen, <- (Nat.add_0_r (length done)), insert_app_r. simpl.
        by rewrite <- app_assoc. }
    rewrite IH.
    + rewrite file_append_append. simpl. rewrite <- !app_assoc. simpl.
      replace (idx + S (length a))%nat with (S (idx + length a)) by lia.
      rewrite Z.add_assoc. reflexivity.
    + intros k Hk. replace (S idx + k)%nat with (idx + S k)%nat by lia.
      apply Hw. simpl. lia.
    + rewrite length_app. simpl. lia.
    + lia.
    + lia.
Qed.

(** X14.  A failed write stops the packager but not the batch: when the
    writes of the first [k] ready lines succeed and the write of line
    [k] fails after [n] bytes, the store holds the first [k] contents
    and those [n] bytes, the error is logged once, the first [k] lines
    carry their byte ranges, and line [k] and all lines after it stay in
    the batch exactly as they were, with the offsets they came with. *)
Theorem first_write_failure env name fs ready k lk n err :
  ready !! k = Some lk ->
  (forall i, (i < k)%nat -> env_WriteString env i = WriteOk) ->
  env_WriteString env k = WriteErr n err ->
  total_length (take k ready) <= Int64.max_signed ->
  run_packager env name fs ready
  = mkPackState
      (<[name := concat_contents (take k ready) +:+ prefix_of_string n (Content lk)]> fs)
      (total_length (take k ready))
      (packaged_from 0 (take k ready) ++ drop k ready)
      [EvPrintError "%s" err].
Proof.
  intros Hk Hok Hfail Hfit. unfold run_packager.
  assert (Hlen : length (take k ready) = k).
  { apply length_take_le. apply lookup_lt_Some in Hk. lia. }
  rewrite <- (take_drop k ready) at 1 2.
  rewrite (package_loop_prefix_ok _ name (take k ready) (drop k ready) 0%nat [] 0)
    by (rewrite ?Hlen; simpl; auto; lia).
  rewrite Hlen. simpl.
  rewrite (drop_S _ _ _ Hk). simpl. rewrite Hfail. simpl.
  f_equal. rewrite file_append_append.
  unfold file_append. apply map_eq. intros x.
  destruct (decide (name = x)) as [<- | Hne].
  - by rewrite lookup_alter_eq, !lookup_insert_eq.
  - by rewrite lookup_alter_ne, !lookup_insert_ne.
Qed.

Lemma first_write_failure_witness :
  let env := mkEnv (10 * sec) (10 * sec) 1 (inl "logs.tmp"%string)
               (fun i => if (i =? 1)%nat then WriteErr 3 "disk full" else WriteOk)
               (fun groups => groups) stub_analyzer
               (fun _ _ => inl (sample_grant true)) (fun _ _ _ _ => None)
               LogState_Cleanup_stores in
  run_packager env "logs.tmp" ∅
    [raw_line (4 * sec) ERROR 100 "syntax error";
     raw_line (4 * sec) ERROR 7 "deadlock detected";
     raw_line (5 * sec) ERROR 100 "at character 5"]
  = mkPackState {[ "logs.tmp"%string := "syntax errordea"%string ]} 12
      [mkLogLine (4 * sec) ERROR 100 "syntax error" 0 0 11 Classification_UNKNOWN ∅;
       raw_line (4 * sec) ERROR 7 "deadlock detected";
       raw_line (5 * sec) ERROR 100 "at character 5"]
      [EvPrintError "%s" "disk full"].
Proof.
  intros env.
  apply (first_write_failure env "logs.tmp" ∅
           [raw_line (4 * sec) ERROR 100 "syntax error";
            raw_line (4 * sec) ERROR 7 "deadlock detected";
            raw_line (5 * sec) ERROR 100 "at character 5"]
           1%nat (raw_line (4 * sec) ERROR 7 "deadlock detected") 3 "disk full").
  - reflexivity.
  - intros i Hi. assert (i = 0%nat) as -> by lia. reflexivity.
  - reflexivity.
  - vm_compute. discriminate.
Defined.

(** X15.  Whether the writes succeed or fail, the packager changes
    nothing of a ready line but its three byte offsets, and it neither
    adds, drops nor reorders lines. *)
Theorem packager_changes_only_offsets env name fs ready :
  let packed := pk_readyLogLines (run_packager env name fs ready) in
  length packed = length ready
  /\ forall i l',
       packed !! i = Some l' ->
       exists l,
         ready !! i = Some l
         /\ Content l' = Content l /\ CollectedAt l' = CollectedAt l
         /\ LogLevelOf l' = LogLevelOf l /\ BackendPid l' = BackendPid l
         /\ Classification l' = Classification l /\ Details l' = Details l.
Proof.
  intros packed. pose proof (run_packager_same_but_bytes env name fs ready) as HF.
  split; [symmetry; by eapply Forall2_length |].
  intros i l' Hi. destruct (Forall2_lookup_r _ _ _ _ _ HF Hi) as (l & Hl & Hsame).
  exists l. split; [exact Hl |]. unfold same_but_bytes in Hsame. rewrite Hsame.
  by destruct l.
Qed.

(** ** More on the joiner *)

Lemma joined_without_content_end h cs :
  without_content_end (joined h cs) = without_content_end h.
Proof. rewrite joined_fields. by destruct h. Qed.

Lemma joined_is_classified h cs : is_classified (joined h cs) = is_classified h.
Proof. rewrite joined_fields. by destruct h. Qed.

(** X16.  The joiner keeps exactly the lines of known level, in their
    order, and changes nothing of them but the content and the end
    offset; every line it hands to the analyzer has a known level. *)
Theorem join_keeps_classified_lines (ls : list LogLine) :
  map without_content_end (join ls)
  = map without_content_end (List.filter is_classified ls)
  /\ length (join ls) = length (List.filter is_classified ls)
  /\ Forall (fun l => is_classified l = true) (join ls).
Proof.
  assert (H : map without_content_end (join ls)
              = map without_content_end (List.filter is_classified ls)).
  { rewrite join_segments, <- segments_fst, !map_map. apply map_ext.
    intros [h cs]. apply joined_without_content_end. }
  split; [exact H |]. split.
  - rewrite <- (length_map without_content_end (join ls)), H. apply length_map.
  - rewrite join_segments. apply Forall_forall. intros l Hl.
    apply list_elem_of_In, in_map_iff in Hl. destruct Hl as ([h cs] & <- & Hin).
    apply segments_in in Hin. destruct Hin as (_ & Hh & _). simpl.
    by rewrite joined_is_classified.
Qed.

(** X17.  A group in which every line has a known level passes the
    joiner unchanged: lines of known level are never merged into one
    another. *)
Theorem join_all_classified (ls : list LogLine) :
  Forall (fun l => is_classified l = true) ls -> join ls = ls.
Proof.
  intros H. rewrite join_segments, segments_all_kept by done.
  rewrite map_map. simpl. induction ls as [|l ls IH]; simpl; [reflexivity |].
  inversion H; subst. f_equal. by apply IH.
Qed.

Lemma join_all_classified_witness :
  join [readyLine; freshLine] = [readyLine; freshLine].
Proof. apply (join_all_classified [readyLine; freshLine]). repeat constructor. Defined.

Lemma concat_contents_joined_segments ls :
  concat_contents (map (fun hc => joined hc.1 hc.2) (segments is_classified ls))
  = concat_contents (drop (length (leading_dropped is_classified ls)) ls).
Proof.
  induction ls as [|l ls IH]; simpl; [reflexivity |].
  destruct (is_classified l); simpl; [| exact IH].
  rewrite IH, joined_fields. simpl. rewrite string_app_assoc. f_equal.
  rewrite <- concat_contents_app. by rewrite <- leading_dropped_split.
Qed.

(** X18.  The joiner loses no text but that of the unknown-level lines
    at the head of a group: the contents of the joined lines, one after
    the other, are the contents of the group's lines from its first
    classified line on, in order and without separators. *)
Theorem join_preserves_text (ls : list LogLine) :
  concat_contents (join ls)
  = concat_contents (drop (length (leading_dropped is_classified ls)) ls).
Proof. rewrite join_segments. apply concat_contents_joined_segments. Qed.

(** ** More on the backend grouper *)

Lemma grouped_lines_step (m : gmap Z (list LogLine)) (l : LogLine) :
  grouped_lines (group_step m l) ≡ₚ l :: grouped_lines m.
Proof.
  unfold grouped_lines, group_step.
  destruct (m !! BackendPid l) as [old |] eqn:Hold; simpl.
  - rewrite <- insert_delete_eq.
    rewrite map_to_list_insert by apply lookup_delete_eq.
    rewrite <- (map_to_list_delete m (BackendPid l) old Hold). simpl.
    rewrite <- app_assoc. simpl. by rewrite <- Permutation_middle.
  - by rewrite map_to_list_insert.
Qed.

Lemma grouped_lines_fold xs :
  forall m : gmap Z (list LogLine),
    grouped_lines (fold_left group_step xs m) ≡ₚ grouped_lines m ++ xs.
Proof.
  induction xs as [|x xs IH]; intros m; simpl; [by rewrite app_nil_r |].
  rewrite IH, grouped_lines_step. simpl. by rewrite Permutation_middle.
Qed.

(** X19.  Grouping by backend loses and duplicates nothing: the lines
    of all groups together are the lines that were grouped, each exactly
    once; every line is in the group of its own backend id, and no group
    is empty. *)
Theorem grouping_is_partition (ls : list LogLine) :
  grouped_lines (group_by_backend ls) ≡ₚ ls
  /\ (forall l, In l ls ->
        exists group, group_by_backend ls !! BackendPid l = Some group /\ In l group)
  /\ (forall p group, group_by_backend ls !! p = Some group -> group <> []).
Proof.
  split; [| split].
  - unfold group_by_backend. rewrite grouped_lines_fold.
    unfold grouped_lines. by rewrite map_to_list_empty.
  - intros l Hl. rewrite group_by_backend_lookup.
    assert (Hin : In l (lines_of_backend (BackendPid l) ls))
      by (by apply lines_of_backend_in).
    destruct (lines_of_backend (BackendPid l) ls) as [|x xs]; [done |].
    by eexists.
  - intros p group H. apply group_by_backend_Some in H. tauto.
Qed.

(** ** Byte ranges after joining *)

Lemma packaged_from_app a :
  forall start b,
    packaged_from start (a ++ b)
    = packaged_from start a ++ packaged_from (start + total_length a) b.
Proof.
  induction a as [|x a IH]; intros start b; simpl.
  - by rewrite Z.add_0_r.
  - rewrite IH. do 3 f_equal. lia.
Qed.

Lemma packaged_from_idem ls :
  forall start, packaged_from start (packaged_from start ls) = packaged_from start ls.
Proof.
  induction ls as [|x ls IH]; intros start; simpl; [reflexivity |].
  by rewrite IH.
Qed.

Lemma packaged_from_contents ls :
  forall start,
    concat_contents (packaged_from start ls) = concat_contents ls
    /\ total_length (packaged_from start ls) = total_length ls.
Proof.
  induction ls as [|x ls IH]; intros start; simpl; [done |].
  destruct (IH (start + Z.of_nat (String.length (Content x)))) as [-> ->]. done.
Qed.

Lemma packaged_from_pid ls p :
  forall start,
    Forall (fun l => BackendPid l = p) ls ->
    Forall (fun l => BackendPid l = p) (packaged_from start ls).
Proof.
  induction ls as [|x ls IH]; intros start H; simpl; [constructor |].
  inversion H; subst. constructor; [done | by apply IH].
Qed.

Section SegmentsDecompose.
Context {A : Type} (keep : A -> bool).

Lemma segments_decompose ls h cs :
  In (h, cs) (segments keep ls) -> exists pre post, ls = pre ++ h :: cs ++ post.
Proof.
  induction ls as [|l ls IH]; simpl; [tauto |].
  destruct (keep l); simpl.
  - intros [[= <- <-] | H].
    + exists [], (drop (length (leading_dropped keep ls)) ls). simpl. f_equal.
      apply leading_dropped_split.
    + destruct (IH H) as (pre & post & ->). by exists (l :: pre), post.
  - intros H. destruct (IH H) as (pre & post & ->). by exists (l :: pre), post.
Qed.
End SegmentsDecompose.

Lemma slice_block (pre mid post : list LogLine) :
  slice (concat_contents (pre ++ mid ++ post)) (total_length pre)
        (total_length pre + total_length mid - 1)
  = concat_contents mid.
Proof.
  unfold slice. rewrite !concat_contents_app.
  rewrite <- !concat_contents_length, Nat2Z.id.
  replace (Z.to_nat _) with (String.length (concat_contents mid)) by lia.
  apply substring_app_middle.
Qed.

(** X20.  When all ready lines of a batch come from one backend and
    every write succeeds, the whole packaged batch is that backend's
    group, and the byte range of every joined line still addresses its
    content: [ByteEnd = ByteStart + len(content) - 1], and the store
    sliced at [ByteStart, ByteEnd] is the joined content. *)
Theorem single_backend_joined_ranges env name fs ready p :
  (forall i, (i < length ready)%nat -> env_WriteString env i = WriteOk) ->
  total_length ready <= Int64.max_signed ->
  ready <> [] ->
  Forall (fun l => BackendPid l = p) ready ->
  let pk := run_packager env name fs ready in
  let store := default ""%string (pk_files pk !! name) in
  group_by_backend (pk_readyLogLines pk) !! p = Some (pk_readyLogLines pk)
  /\ forall j,
       In j (join (pk_readyLogLines pk)) ->
       ByteEnd j = ByteStart j + Z.of_nat (String.length (Content j)) - 1
       /\ slice store (ByteStart j) (ByteEnd j) = Content j.
Proof.
  intros Hw Hfit Hne Hpid pk store. subst store pk.
  rewrite run_packager_all_ok by assumption. simpl.
  rewrite lookup_insert_eq. simpl.
  set (P := packaged_from 0 ready).
  assert (HP : packaged_from 0 P = P) by apply packaged_from_idem.
  destruct (packaged_from_contents ready 0) as [Hcc Htl]. fold P in Hcc, Htl.
  split.
  - rewrite group_by_backend_lookup. unfold lines_of_backend.
    rewrite filter_all_true.
    + destruct P eqn:HPe; [| done]. exfalso. apply Hne.
      apply length_zero_iff_nil. rewrite <- (packaged_from_length 0). fold P.
      by rewrite HPe.
    + intros x Hx. apply Z.eqb_eq.
      pose proof (packaged_from_pid ready p 0 Hpid) as HF. fold P in HF.
      rewrite Forall_forall in HF. apply HF. by apply list_elem_of_In.
  - intros j Hj. rewrite join_segments in Hj. apply in_map_iff in Hj.
    destruct Hj as ([h cs] & <- & Hseg). simpl.
    destruct (segments_decompose _ _ _ _ Hseg) as (pre & post & HPd).
    rewrite HPd in HP. rewrite packaged_from_app in HP. simpl in HP.
    apply app_inj_1 in HP; [| apply packaged_from_length].
    destruct HP as [_ HP]. injection HP as Hh _.
    assert (Hstart : ByteStart h = total_length pre) by (by rewrite <- Hh).
    assert (Hend : ByteEnd h = total_length pre + Z.of_nat (String.length (Content h)) - 1)
      by (by rewrite <- Hh).
    assert (Htot : total_length pre + Z.of_nat (String.length (Content h))
                   + total_length cs + total_length post = total_length ready).
    { rewrite <- Htl, HPd, !total_length_app. simpl. rewrite total_length_app. lia. }
    pose proof (total_length_nonneg pre). pose proof (total_length_nonneg post).
    pose proof (total_length_nonneg cs).
    pose proof (Nat2Z.is_nonneg (String.length (Content h))).
    rewrite joined_fields. simpl.
    rewrite joined_ByteEnd_small by lia.
    rewrite string_length_app, Nat2Z.inj_add, concat_contents_length.
    split; [lia |].
    rewrite <- Hcc, HPd, Hstart, Hend.
    replace (total_length pre + Z.of_nat (String.length (Content h)) - 1 + total_length cs)
      with (total_length pre + total_length (h :: cs) - 1) by (simpl; lia).
    change (h :: cs ++ post) with ((h :: cs) ++ post).
    apply (slice_block pre (h :: cs) post).
Qed.

Lemma single_backend_joined_ranges_witness :
  let ready := [raw_line (4 * sec) ERROR 100 "select a,";
                raw_line (4 * sec) LogLevel_UNKNOWN 100 " b";
                raw_line (5 * sec) ERROR 100 "oops"] in
  let pk := run_packager (sample_env stub_analyzer (inl (sample_grant true)) None)
              "logs.tmp" ∅ ready in
  In (mkLogLine (4 * sec) ERROR 100 "select a, b" 0 0 10 Classification_UNKNOWN ∅)
     (join (pk_readyLogLines pk))
  /\ slice "select a, boops" 0 10 = "select a, b"%string.
Proof.
  intros ready pk.
  assert (Hin : In (mkLogLine (4 * sec) ERROR 100 "select a, b" 0 0 10
                      Classification_UNKNOWN ∅) (join (pk_readyLogLines pk)))
    by (vm_compute; tauto).
  split; [exact Hin |].
  destruct (single_backend_joined_ranges
              (sample_env stub_analyzer (inl (sample_grant true)) None)
              "logs.tmp" ∅ ready 100
              (fun _ _ => eq_refl) ltac:(vm_compute; discriminate)
              ltac:(discriminate) ltac:(repeat constructor)) as [_ H].
  destruct (H _ Hin) as [_ Hs]. exact Hs.
Defined.

(** ** The remaining outcomes of the dispatcher *)

Lemma upload_success_path env server logLines opts w s g o ls st :
  In (EvUploadAndSendLogs s g o ls st None)
     (trace (AnalyzeInGroupsAndSend env server logLines opts w)) ->
  outcome (AnalyzeInGroupsAndSend env server logLines opts w)
  = Returned RetUploaded (tooFresh_of (env_Now env) logLines).
Proof.
  unfold AnalyzeInGroupsAndSend, tooFresh_of.
  destruct (window (env_Now env) (stitch logLines)) as [ready tooFresh].
  repeat case_match; simpl; intros Hin; try reflexivity; exfalso.
  all: trace_cases Hin.
Qed.

(** X21.  Delivery: when the upload succeeds, the function returns
    exactly the too-fresh lines, so no ready line is handed back for a
    second dispatch, and, with a release that deletes the stores of the
    envelope's artifacts, the temporary file is gone. *)
Theorem delivered_lines_are_not_returned env server logLines opts w s g o ls st :
  let R := AnalyzeInGroupsAndSend env server logLines opts w in
  In (EvUploadAndSendLogs s g o ls st None) (trace R) ->
  outcome R = Returned RetUploaded (tooFresh_of (env_Now env) logLines)
  /\ (forall l, In l (ready_of (env_Now env) logLines) ->
                ~ In l (tooFresh_of (env_Now env) logLines))
  /\ (cleanup_deletes env ->
      exists name, env_TempFile env = inl name /\ files (world R) !! name = None).
Proof.
  intros R Hin. pose proof (upload_success_path _ _ _ _ _ _ _ _ _ _ Hin) as Hout.
  split; [exact Hout |]. split; [intros l; apply ready_tooFresh_disjoint |].
  intros Hdel. by apply (other_paths_release_store _ _ _ _ _ _ _ Hdel Hout).
Qed.

Lemma delivered_lines_are_not_returned_witness :
  outcome (AnalyzeInGroupsAndSend
             (sample_env stub_analyzer (inl (sample_grant true)) None)
             sample_server [readyLine; freshLine] (sample_opts false false)
             (sample_world 0 0))
  = Returned RetUploaded (tooFresh_of (10 * sec) [readyLine; freshLine]).
Proof.
  destruct (delivered_lines_are_not_returned
              (sample_env stub_analyzer (inl (sample_grant true)) None)
              sample_server [readyLine; freshLine] (sample_opts false false)
              (sample_world 0 0)
              sample_server (sample_grant true) (sample_opts false false)
              (mkLogState (10 * sec)
                 [mkLogFile 1 (Some "logs.tmp"%string)
                    [mkLogLine (4 * sec) ERROR 100 "syntax error" 0 0 11
                       Classification_UNKNOWN ∅]] [])
              {[ "logs.tmp"%string := "syntax error"%string ]}) as [H _].
  - vm_compute. tauto.
  - exact H.
Defined.

(** X22.  Nothing to send: when a line is ready, the store is allocated
    and the analysis yields neither an output line nor a sample, the
    function returns the too-fresh lines only, in every mode, without
    requesting a grant, uploading or signalling; the ready lines are
    dropped. *)
Theorem nothing_to_send_drops_ready_lines env server logLines opts w name :
  env_TempFile env = inl name ->
  ready_of (env_Now env) logLines <> [] ->
  output_of env name (files w) (ready_of (env_Now env) logLines) = ([], []) ->
  let R := AnalyzeInGroupsAndSend env server logLines opts w in
  outcome R = Returned RetNothingToSend (tooFresh_of (env_Now env) logLines)
  /\ network_calls (trace R) = []
  /\ sends_of (trace R) = []
  /\ logTestSucceeded (world R) = logTestSucceeded w.
Proof.
  unfold AnalyzeInGroupsAndSend, output_of, run_packager, ready_of, tooFresh_of.
  destruct (window (env_Now env) (stitch logLines)) as [ready tooFresh]. simpl fst.
  simpl snd. intros Hname Hready Hout.
  destruct ready as [|r ready]; [done |]. simpl length. simpl Nat.eqb. cbv iota.
  rewrite Hname, Hout.
  cbn [outcome trace world logTestSucceeded andb length Nat.eqb].
  rewrite network_calls_package_loop, sends_of_package_loop. by repeat split.
Qed.

Lemma nothing_to_send_drops_ready_lines_witness :
  outcome (AnalyzeInGroupsAndSend
             (sample_env stub_analyzer (inl (sample_grant true)) None)
             sample_server [orphanLine; freshLine] (sample_opts false false)
             (sample_world 0 0))
  = Returned RetNothingToSend (tooFresh_of (10 * sec) [orphanLine; freshLine]).
Proof.
  destruct (nothing_to_send_drops_ready_lines
              (sample_env stub_analyzer (inl (sample_grant true)) None)
              sample_server [orphanLine; freshLine] (sample_opts false false)
              (sample_world 0 0) "logs.tmp") as [H _].
  - reflexivity.
  - vm_compute. discriminate.
  - vm_compute. reflexivity.
  - exact H.
Defined.

(** X23.  Debug mode: when a line is ready, the store is allocated and
    the analysis yields something, the function prints the content of
    the store together with the output lines and samples, and returns
    the too-fresh lines only; when all writes succeeded, the printed
    content is the contents of the ready lines one after the other. *)
Theorem debug_mode_prints_store env server logLines opts w name :
  env_TempFile env = inl name ->
  ready_of (env_Now env) logLines <> [] ->
  DebugLogs opts = true ->
  let ready := ready_of (env_Now env) logLines in
  let out := output_of env name (files w) ready in
  let pk := run_packager env name (files w) ready in
  (out.1 <> [] \/ out.2 <> []) ->
  let R := AnalyzeInGroupsAndSend env server logLines opts w in
  outcome R = Returned RetDebug (tooFresh_of (env_Now env) logLines)
  /\ trace R = pk_trace pk
               ++ [EvPrintInfo "Would have sent log state:\n";
                   EvPrintDebugInfo (default ""%string (pk_files pk !! name)) out.1 out.2]
  /\ ((forall i, (i < length ready)%nat -> env_WriteString env i = WriteOk) ->
      total_length ready <= Int64.max_signed ->
      default ""%string (pk_files pk !! name) = concat_contents ready).
Proof.
  intros Hname Hready Hdebug ready out pk Hout R.
  split; [| split].
  - subst R out pk ready. revert Hready Hout.
    unfold AnalyzeInGroupsAndSend, output_of, run_packager, ready_of, tooFresh_of.
    destruct (window (env_Now env) (stitch logLines)) as [rd tooFresh]. simpl fst.
    simpl snd. intros Hready.
    destruct rd as [|r rd]; [done |]. simpl length. simpl Nat.eqb. cbv iota.
    rewrite Hname. destruct (analyze_groups env _ [] []) as [lines samples]. simpl.
    intros Hout.
    replace ((length lines =? 0)%nat && (length samples =? 0)%nat) with false.
    2:{ symmetry. apply andb_false_iff. rewrite !Nat.eqb_neq.
        destruct Hout as [H | H]; [left | right]; intros H0;
          apply H; by apply length_zero_iff_nil. }
    by rewrite Hdebug.
  - subst R out pk ready. revert Hready Hout.
    unfold AnalyzeInGroupsAndSend, output_of, run_packager, ready_of, tooFresh_of.
    destruct (window (env_Now env) (stitch logLines)) as [rd tooFresh]. simpl fst.
    intros Hready.
    destruct rd as [|r rd]; [done |]. simpl length. simpl Nat.eqb. cbv iota.
    rewrite Hname. destruct (analyze_groups env _ [] []) as [lines samples]. simpl.
    intros Hout.
    replace ((length lines =? 0)%nat && (length samples =? 0)%nat) with false.
    2:{ symmetry. apply andb_false_iff. rewrite !Nat.eqb_neq.
        destruct Hout as [H | H]; [left | right]; intros H0;
          apply H; by apply length_zero_iff_nil. }
    by rewrite Hdebug.
  - intros Hw Hfit. subst pk. rewrite run_packager_all_ok by assumption. simpl.
    by rewrite lookup_insert_eq.
Qed.

Lemma debug_mode_prints_store_witness :
  trace (AnalyzeInGroupsAndSend
           (sample_env stub_analyzer (inl (sample_grant true)) None)
           sample_server [readyLine; freshLine] (sample_opts false true)
           (sample_world 0 0))
  = [EvPrintInfo "Would have sent log state:\n";
     EvPrintDebugInfo "syntax error"
       [mkLogLine (4 * sec) ERROR 100 "syntax error" 0 0 11 Classification_UNKNOWN ∅] []].
Proof.
  destruct (debug_mode_prints_store
              (sample_env stub_analyzer (inl (sample_grant true)) None)
              sample_server [readyLine; freshLine] (sample_opts false true)
              (sample_world 0 0) "logs.tmp") as (_ & H & _).
  - reflexivity.
  - vm_compute. discriminate.
  - reflexivity.
  - left. vm_compute. discriminate.
  - exact H.
Defined.

(** ** The order in which the groups are analyzed *)

Lemma analyze_groups_flat_map env groups :
  forall outLines samples,
    analyze_groups env groups outLines samples
    = (outLines ++ flat_map (fun g => (AnalyzeBackendLogLines env (join g.2)).1) groups,
       samples ++ flat_map (fun g => (AnalyzeBackendLogLines env (join g.2)).2) groups).
Proof.
  induction groups as [|[p g] groups IH]; intros outLines samples; simpl.
  - by rewrite !app_nil_r.
  - destruct (AnalyzeBackendLogLines env (join g)) as [o s] eqn:Ha.
    rewrite IH. simpl. by rewrite <- !app_assoc.
Qed.

(** X24.  The iteration order of the Go map only orders the output: the
    output lines and samples are the analyzer's results on the joined
    groups, one group after the other, so two iteration orders of the
    same groups give the same output lines and the same samples up to
    their order, the same number of identity markers for test mode, and
    agree on whether there is anything to send. *)
Theorem group_order_only_orders_output env server groups groups' :
  groups ≡ₚ groups' ->
  let out := analyze_groups env groups [] [] in
  let out' := analyze_groups env groups' [] [] in
  out.1 ≡ₚ out'.1
  /\ out.2 ≡ₚ out'.2
  /\ length (List.filter (is_identify server) out.1)
     = length (List.filter (is_identify server) out'.1)
  /\ ((length out.1 =? 0)%nat && (length out.2 =? 0)%nat
      = (length out'.1 =? 0)%nat && (length out'.2 =? 0)%nat).
Proof.
  intros Hp out out'. subst out out'. rewrite !analyze_groups_flat_map. simpl.
  assert (H1 : flat_map (fun g => (AnalyzeBackendLogLines env (join g.2)).1) groups
               ≡ₚ flat_map (fun g => (AnalyzeBackendLogLines env (join g.2)).1) groups')
    by (by apply Permutation_flat_map).
  assert (H2 : flat_map (fun g => (AnalyzeBackendLogLines env (join g.2)).2) groups
               ≡ₚ flat_map (fun g => (AnalyzeBackendLogLines env (join g.2)).2) groups')
    by (by apply Permutation_flat_map).
  split; [exact H1 |]. split; [exact H2 |]. split.
  - apply Permutation_length. revert H1. generalize
      (flat_map (fun g => (AnalyzeBackendLogLines env (join g.2)).1) groups)
      (flat_map (fun g => (AnalyzeBackendLogLines env (join g.2)).1) groups').
    induction 1 as [| x l l' _ IH | x y l | l l' l'' _ IH1 _ IH2]; simpl.
    + reflexivity.
    + destruct (is_identify server x); by rewrite IH.
    + destruct (is_identify server x), (is_identify server y);
        first [reflexivity | apply perm_swap].
    + by rewrite IH1.
  - by rewrite (Permutation_length H1), (Permutation_length H2).
Qed.

Lemma group_order_only_orders_output_witness :
  let a := (100, [readyLine]) in
  let b := (7, [raw_line (4 * sec) ERROR 7 "deadlock detected"]) in
  (analyze_groups (sample_env stub_analyzer (inl (sample_grant true)) None) [a; b] [] []).1
  ≡ₚ (analyze_groups (sample_env stub_analyzer (inl (sample_grant true)) None)
        [b; a] [] []).1.
Proof.
  intros a b.
  destruct (group_order_only_orders_output
              (sample_env stub_analyzer (inl (sample_grant true)) None)
              sample_server [a; b] [b; a] (perm_swap b a [])) as [H _].
  exact H.
Defined.
